(** * Saudi Cities Weather Dashboard: the fetch / cache / aggregation pipeline

    A shallow embedding of [app.py]: the city registry, the Open-Meteo
    fetcher, the five-minute memoisation placed on it by
    [@st.cache_data(ttl=300)], the loop that collects the per-city frames,
    and the reshaping that yields the merged frame, the extremes and the
    latest-snapshot table, the metrics, the heatmap tables and the wind-rose
    selection. The charts are left out, and the mean of a group of
    temperatures is a function left open.

    Conventions.
    - A timestamp is the instant [pd.to_datetime] yields, an integer count
      on the [datetime64] axis.
    - A reading (temperature, wind speed, wind direction) is the decimal
      number of the JSON payload carried as an integer count of its last
      digit; only order and equality of readings are used below. The arrays
      of a payload hold instants and numbers; [null] cells are not modelled.
    - A frame is the list of its rows in positional order, each with its
      index label.
    - Clock readings are those of the monotonic clock, in nanoseconds.
    - The library routines ([requests], [pandas], [st.cache_data]) are
      modelled by what they are documented and implemented to do on these
      data; the sorting routine is taken by its contract (class [ArgSort]),
      with insertion sort as an instance. *)

From Stdlib Require Import ZArith String List Sorted Permutation Lia.
From stdpp Require Import base option list sorting gmap strings.

Open Scope Z_scope.

(* ===================================================================== *)
(** * City registry (lines 23-34) *)
(* ===================================================================== *)

(** The options of the multiselect are the keys of [CITIES]; a selection is
    a list of distinct options, in the order the widget reports them. *)
Inductive City : Type := Riyadh | Jeddah | Dammam | Abha.

#[global] Instance City_eq_dec : EqDecision City.
Proof. solve_decision. Defined.

Definition city_name (c : City) : string :=
  match c with
  | Riyadh => "Riyadh"
  | Jeddah => "Jeddah"
  | Dammam => "Dammam"
  | Abha => "Abha"
  end.

(** Coordinates in units of 0.0001 degree. *)
Record Coord : Type := { lat : Z; lon : Z }.

Definition CITIES (c : City) : Coord :=
  match c with
  | Riyadh => {| lat := 247136; lon := 466753 |}
  | Jeddah => {| lat := 214858; lon := 391925 |}
  | Dammam => {| lat := 263927; lon := 499777 |}
  | Abha => {| lat := 182465; lon := 425117 |}
  end.

Definition default_selection : list City := [Riyadh; Jeddah; Dammam; Abha].

(* ===================================================================== *)
(** * Frames *)
(* ===================================================================== *)

Record Row : Type := {
  city : string;
  time : Z;
  temp : Z;
  windspeed : Z;
  winddirection : Z
}.

(** A frame: rows in positional order, each paired with its index label. *)
Abbreviation DataFrame := (list (nat * Row)).

Definition rows (df : DataFrame) : list Row := map snd df.
Definition index (df : DataFrame) : list nat := map fst df.

(** [df.empty] *)
Definition empty (df : DataFrame) : bool :=
  match df with [] => true | _ => false end.

(** A fresh [RangeIndex] over the given rows. *)
Definition range_index (rs : list Row) : DataFrame :=
  combine (seq 0 (length rs)) rs.

(** The Python exceptions the pipeline can meet. *)
Inductive Exn : Type :=
| ConnectionError
| ReadTimeout
| HTTPError (status : Z)
| JSONDecodeError
| KeyError (key : string)
| ValueError.

Inductive Result (A : Type) : Type :=
| Ok (a : A)
| Raise (e : Exn).
Arguments Ok {A} a.
Arguments Raise {A} e.

(* ===================================================================== *)
(** * Fetcher (lines 66-99) *)
(* ===================================================================== *)

(** The [hourly] member of the response object: absent, [null], or an
    object whose members are arrays. *)
Inductive Hourly : Type :=
| HourlyAbsent
| HourlyNull
| HourlyObj (series : gmap string (list Z)).

(** What [requests.get(url, timeout=10)] can produce. [body = None] stands
    for a body that is not JSON. *)
Record Response : Type := { status_code : Z; body : option Hourly }.

Inductive HttpOutcome : Type :=
| ConnectionFailed
| TimedOut
| Responded (resp : Response).

(** [data.get("hourly", {})] followed by [if not hourly]. *)
Definition hourly_series (h : Hourly) : option (gmap string (list Z)) :=
  match h with
  | HourlyAbsent => None
  | HourlyNull => None
  | HourlyObj m => if decide (m = ∅) then None else Some m
  end.

(** [hourly[key]] *)
Definition getitem (m : gmap string (list Z)) (key : string) : Result (list Z) :=
  match m !! key with
  | Some xs => Ok xs
  | None => Raise (KeyError key)
  end.

Definition zip4 (city_name : string) (times temps winds winddirs : list Z) : list Row :=
  map (fun q => match q with
                | (((t, a), b), c) =>
                    {| city := city_name; time := t; temp := a;
                       windspeed := b; winddirection := c |}
                end)
      (combine (combine (combine times temps) winds) winddirs).

(** [pd.DataFrame({"city": city_name, "time": ..., "temp": ..., ...})]:
    the scalar is broadcast, the four arrays must have one length. *)
Definition make_frame (city_name : string) (times temps winds winddirs : list Z)
  : Result DataFrame :=
  if (length temps =? length times)%nat
     && (length winds =? length times)%nat
     && (length winddirs =? length times)%nat
  then Ok (range_index (zip4 city_name times temps winds winddirs))
  else Raise ValueError.

(** Lines 80-99, from the outcome of the request on. *)
Definition parse_response (city_name : string) (out : HttpOutcome) : Result DataFrame :=
  match out with
  | ConnectionFailed => Raise ConnectionError
  | TimedOut => Raise ReadTimeout
  | Responded resp =>
      if (400 <=? status_code resp) && (status_code resp <? 600)
      then Raise (HTTPError (status_code resp))
      else
        match body resp with
        | None => Raise JSONDecodeError
        | Some h =>
            match hourly_series h with
            | None => Ok []
            | Some hourly =>
                match getitem hourly "time" with
                | Raise e => Raise e
                | Ok times =>
                match getitem hourly "temperature_2m" with
                | Raise e => Raise e
                | Ok temps =>
                match getitem hourly "windspeed_10m" with
                | Raise e => Raise e
                | Ok winds =>
                match getitem hourly "winddirection_10m" with
                | Raise e => Raise e
                | Ok winddirs => make_frame city_name times temps winds winddirs
                end end end end
            end
        end
  end.

(* ===================================================================== *)
(** * The network and the memoised fetcher (lines 65-66, 79, 101-103) *)
(* ===================================================================== *)

(** The query string carries the coordinates and [past_days]; the city name
    is not part of it. *)
Record Request : Type := { latitude : Z; longitude : Z; past_days : Z }.

(** The outside world: what a request sent at a given clock reading comes
    back with, and how long that takes. *)
Definition Network : Type := Z -> Request -> N * HttpOutcome.

(** The memo key: the four arguments of the decorated function. *)
Abbreviation Key := (string * Z * Z * Z)%type.

Record CacheEntry : Type := { value : DataFrame; created_at : Z }.

Record World : Type := {
  mem_cache : gmap Key CacheEntry;
  clock : Z;
  requests_sent : list Request
}.

Definition ttl_seconds : Z := 300.
Definition ns_per_second : Z := 1000000000.
Definition ttl : Z := ttl_seconds * ns_per_second.

(** The body of [fetch_city_hourly]: one request, then the parse. *)
Definition fetch_city_hourly_body (net : Network) (city_name : string)
    (lat lon days_back : Z) (w : World) : Result DataFrame * World :=
  let rq := {| latitude := lat; longitude := lon; past_days := days_back |} in
  let '(elapsed, out) := net (clock w) rq in
  (parse_response city_name out,
   {| mem_cache := mem_cache w;
      clock := clock w + Z.of_N elapsed;
      requests_sent := requests_sent w ++ [rq] |}).

(** An entry is served while the clock reads less than its creation time
    plus the time to live. *)
Definition cache_lookup (k : Key) (w : World) : option DataFrame :=
  match mem_cache w !! k with
  | Some e => if clock w <? created_at e + ttl then Some (value e) else None
  | None => None
  end.

Definition cache_store (k : Key) (v : DataFrame) (w : World) : World :=
  {| mem_cache := <[k := {| value := v; created_at := clock w |}]> (mem_cache w);
     clock := clock w;
     requests_sent := requests_sent w |}.

(** [fetch_city_hourly] as decorated by [@st.cache_data(ttl=300)]: a live
    entry is returned (as a copy) without running the body; otherwise the
    body runs, and its value is stored unless it raised. *)
Definition fetch_city_hourly (net : Network) (city_name : string)
    (lat lon days_back : Z) (w : World) : Result DataFrame * World :=
  let k := (city_name, lat, lon, days_back) in
  match cache_lookup k w with
  | Some v => (Ok v, w)
  | None =>
      match fetch_city_hourly_body net city_name lat lon days_back w with
      | (Ok v, w1) => (Ok v, cache_store k v w1)
      | (Raise e, w1) => (Raise e, w1)
      end
  end.

(** [fetch_city_hourly.clear()] *)
Definition clear (w : World) : World :=
  {| mem_cache := ∅; clock := clock w; requests_sent := requests_sent w |}.

(** Time going by between two statements or two runs of the script. *)
Definition elapse (d : N) (w : World) : World :=
  {| mem_cache := mem_cache w;
     clock := clock w + Z.of_N d;
     requests_sent := requests_sent w |}.

(* ===================================================================== *)
(** * The fetch loop (lines 108-116) *)
(* ===================================================================== *)

Abbreviation Errors := (list (City * Exn)).

(** The call at line 112 for one city. *)
Definition fetch_for (net : Network) (days_back : Z) (c : City) (w : World)
  : Result DataFrame * World :=
  let info := CITIES c in
  fetch_city_hourly net (city_name c) (lat info) (lon info) days_back w.

Fixpoint fetch_loop (net : Network) (days_back : Z) (selected_cities : list City)
    (all_dfs : list DataFrame) (errors : Errors) (w : World)
  : list DataFrame * Errors * World :=
  match selected_cities with
  | [] => (all_dfs, errors, w)
  | c :: rest =>
      match fetch_for net days_back c w with
      | (Ok df_city, w1) =>
          if empty df_city
          then fetch_loop net days_back rest all_dfs errors w1
          else fetch_loop net days_back rest (all_dfs ++ [df_city]) errors w1
      | (Raise e, w1) =>
          fetch_loop net days_back rest all_dfs (errors ++ [(c, e)]) w1
      end
  end.

(** What each call at line 112 came back with, in the order of the loop. *)
Fixpoint observed (net : Network) (days_back : Z) (selected_cities : list City)
    (w : World) : list (City * Result DataFrame) :=
  match selected_cities with
  | [] => []
  | c :: rest =>
      let '(r, w1) := fetch_for net days_back c w in
      (c, r) :: observed net days_back rest w1
  end.

(* ===================================================================== *)
(** * Frame operations used by the aggregation *)
(* ===================================================================== *)

(** [pd.concat(all_dfs, ignore_index=True)] *)
Definition concat_ignore_index (all_dfs : list DataFrame) : DataFrame :=
  range_index (concat (map rows all_dfs)).

(** Positional selection, [take]. A position out of range selects nothing
    here; the indexers below are permutations of the positions, so none
    is. *)
Definition take {A : Type} (indexer : list nat) (l : list A) : list A :=
  omap (fun i => l !! i) indexer.

(** The sorting routine behind [sort_values]. The default [kind] is
    "quicksort", which promises an indexer that is a permutation of the
    positions and puts the keys in order, and nothing about the order of
    equal keys. The routine sees the key column only. *)
Class ArgSort : Type := {
  argsort : forall {K : Type}, (K -> K -> bool) -> list K -> list nat;
  argsort_perm : forall {K : Type} (le : K -> K -> bool) (ks : list K),
      argsort le ks ≡ₚ seq 0 (length ks);
  argsort_sorted : forall {K : Type} (le : K -> K -> bool) (ks : list K),
      (forall a b, le a b = true \/ le b a = true) ->
      (forall a b c, le a b = true -> le b c = true -> le a c = true) ->
      Sorted (fun a b => le a b = true) (take (argsort le ks) ks)
}.

(** [df.sort_values(by)], ascending. *)
Definition sort_values {S : ArgSort} {K : Type} (le : K -> K -> bool) (by_ : Row -> K)
    (fr : DataFrame) : DataFrame :=
  take (argsort le (map (fun p => by_ (snd p)) fr)) fr.

(** The routine numpy runs on partitions of at most sixteen elements, and
    on whole arrays that short: insertion sort over the index array. *)
Section Insertion.
Context {K : Type} (le : K -> K -> bool) (ks : list K).

(** [v[i] < v[j]] *)
Definition key_lt (i j : nat) : bool :=
  match ks !! i, ks !! j with
  | Some a, Some b => negb (le b a)
  | _, _ => false
  end.

Fixpoint insert_index (i : nat) (sorted : list nat) : list nat :=
  match sorted with
  | [] => [i]
  | j :: rest => if key_lt i j then i :: j :: rest else j :: insert_index i rest
  end.

Definition insertion_argsort : list nat :=
  fold_left (fun acc i => insert_index i acc) (seq 0 (length ks)) [].

(** The keys at positions [i] and [j] are in order. *)
Definition key_le (i j : nat) : Prop :=
  exists a b, ks !! i = Some a /\ ks !! j = Some b /\ le a b = true.
End Insertion.

(** Position of the first maximum ([argmax]). *)
Fixpoint argmax_from (best_pos : nat) (best : Z) (pos : nat) (xs : list Z) : nat :=
  match xs with
  | [] => best_pos
  | x :: rest =>
      if best <? x then argmax_from pos x (S pos) rest
      else argmax_from best_pos best (S pos) rest
  end.

Definition argmax (xs : list Z) : option nat :=
  match xs with
  | [] => None
  | x :: rest => Some (argmax_from 0%nat x 1%nat rest)
  end.

(** [df[col].idxmax()]: the label at the position of the first maximum;
    [ValueError] on an empty column. *)
Definition idxmax (col : Row -> Z) (fr : DataFrame) : Result nat :=
  match argmax (map (fun p => col (snd p)) fr) with
  | None => Raise ValueError
  | Some i =>
      match index fr !! i with
      | Some label => Ok label
      | None => Raise ValueError
      end
  end.

(** [df.loc[label]] read as one row. An absent label is a [KeyError]; a
    label carried by several rows selects a frame, which the formatting at
    lines 157 and 162 rejects. *)
Definition loc (fr : DataFrame) (label : nat) : Result Row :=
  match List.filter (fun p => (fst p =? label)%nat) fr with
  | [] => Raise (KeyError "label")
  | [p] => Ok (snd p)
  | _ :: _ :: _ => Raise ValueError
  end.

(** Rows after this one that belong to the same group:
    [cumcount(ascending=False)]. *)
Definition later_in_group (key : string) (rest : DataFrame) : nat :=
  length (List.filter (fun p => String.eqb (city (snd p)) key) rest).

(** [groupby("city").tail(n)]: the rows at most [n] from the end of their
    group, in the order of the frame. *)
Fixpoint groupby_city_tail (n : nat) (fr : DataFrame) : DataFrame :=
  match fr with
  | [] => []
  | p :: rest =>
      if (later_in_group (city (snd p)) rest <? n)%nat
      then p :: groupby_city_tail n rest
      else groupby_city_tail n rest
  end.

(** [df["city"].nunique()] *)
Definition nunique (names : list string) : nat := length (remove_dups names).

(* ===================================================================== *)
(** * Aggregation and page (lines 58-60, 101-103, 118-177) *)
(* ===================================================================== *)

Record Views : Type := {
  df : DataFrame;
  num_cities : nat;
  num_records : nat;
  hottest_row : Row;
  windiest_row : Row;
  latest_rows : DataFrame
}.

(** Lines 122-123. *)
Definition merge {S : ArgSort} (all_dfs : list DataFrame) : DataFrame :=
  sort_values Z.leb time (concat_ignore_index all_dfs).

(** Lines 172-177. *)
Definition latest_snapshot {S : ArgSort} (fr : DataFrame) : DataFrame :=
  sort_values String.leb city (groupby_city_tail 1 (sort_values Z.leb time fr)).

Definition bind_result {A B : Type} (r : Result A) (k : A -> Result B) : Result B :=
  match r with
  | Ok a => k a
  | Raise e => Raise e
  end.

Notation "x <~ r ;; k" := (bind_result r (fun x => k))
  (at level 100, r at next level, right associativity).

(** Lines 122-177 on a non-empty [all_dfs]. *)
Definition derive {S : ArgSort} (all_dfs : list DataFrame) : Result Views :=
  let fr := merge all_dfs in
  i_hot <~ idxmax temp fr ;;
  hot <~ loc fr i_hot ;;
  i_wind <~ idxmax windspeed fr ;;
  wind <~ loc fr i_wind ;;
  Ok {| df := fr;
        num_cities := nunique (map city (rows fr));
        num_records := length fr;
        hottest_row := hot;
        windiest_row := wind;
        latest_rows := latest_snapshot fr |}.

(** How a run of the script ends: at one of the two [st.stop()], at the end
    of the page, or on an exception raised outside the [try] of the loop. *)
Inductive Page : Type :=
| StoppedNoSelection
| StoppedNoData (errors : Errors)
| Rendered (errors : Errors) (views : Views)
| Uncaught (errors : Errors) (e : Exn).

(** Lines 108-177: the loop, the no-data stop, the views. *)
Definition build {S : ArgSort} (net : Network) (selected_cities : list City)
    (days_back : Z) (w : World) : Page * World :=
  match fetch_loop net days_back selected_cities [] [] w with
  | (all_dfs, errors, w1) =>
      match all_dfs with
      | [] => (StoppedNoData errors, w1)
      | _ :: _ =>
          match derive all_dfs with
          | Ok v => (Rendered errors v, w1)
          | Raise e => (Uncaught errors e, w1)
          end
      end
  end.

(** The script from line 58 on. *)
Definition app {S : ArgSort} (net : Network) (selected_cities : list City)
    (days_back : Z) (refresh : bool) (w : World) : Page * World :=
  match selected_cities with
  | [] => (StoppedNoSelection, w)
  | _ :: _ => build net selected_cities days_back (if refresh then clear w else w)
  end.

(* ===================================================================== *)
(** * Further parts of the script *)
(* ===================================================================== *)

(** ** The time window (lines 36-51) *)

Definition window_options : list string :=
  ["Today only (0 past days)"; "Today + Yesterday (1 past day)";
   "Last 3 days (3 past days)"]%string.

(** [needle in s] *)
Definition contains (needle s : string) : bool :=
  match String.index 0 needle s with
  | Some _ => true
  | None => false
  end.

Definition days_back_of (days_option : string) : Z :=
  if contains "0" days_option then 0
  else if contains "1" days_option then 1
  else 3.

(** ** The metrics of lines 135-136 *)

(** [Series.max()] and [Series.min()]; nothing on an empty column. *)
Definition series_max (xs : list Z) : option Z :=
  match xs with
  | [] => None
  | x :: rest => Some (fold_left Z.max rest x)
  end.

Definition series_min (xs : list Z) : option Z :=
  match xs with
  | [] => None
  | x :: rest => Some (fold_left Z.min rest x)
  end.

Definition overall_max_temp (fr : DataFrame) : option Z :=
  series_max (map temp (rows fr)).

Definition overall_min_temp (fr : DataFrame) : option Z :=
  series_min (map temp (rows fr)).

(** ** The wind rose selection (lines 287-291) *)

(** [Series.unique()]: the values in order of first appearance. *)
Fixpoint unique_from (seen l : list string) : list string :=
  match l with
  | [] => []
  | x :: rest =>
      if bool_decide (x ∈ seen) then unique_from seen rest
      else x :: unique_from (x :: seen) rest
  end.

Definition unique (l : list string) : list string := unique_from [] l.

Definition string_le (a b : string) : Prop := String.leb a b = true.

#[global] Instance string_le_dec : RelDecision string_le.
Proof. intros a b. unfold string_le. apply _. Defined.

(** [sorted(names)] *)
Definition sorted (names : list string) : list string :=
  merge_sort string_le names.

(** The options of the selectbox. *)
Definition wind_options (fr : DataFrame) : list string :=
  sorted (unique (map city (rows fr))).

(** [df[df["city"] == wind_city]] *)
Definition wind_df (fr : DataFrame) (wind_city : string) : DataFrame :=
  List.filter (fun p => String.eqb (city (snd p)) wind_city) fr.

(** ** Calendar fields and the heatmap tables (lines 126-127, 214-216,
       228-230) *)

(** The timestamps are naive local times; [ticks_per_hour] is the number of
    units of the [datetime64] axis in an hour. [dt.hour] is the hour of the
    day; [dt.date] is carried as the number of the day, counted from the
    origin of the axis. *)
Definition hour_of (ticks_per_hour t : Z) : Z := (t / ticks_per_hour) mod 24.
Definition date_of (ticks_per_hour t : Z) : Z := t / (24 * ticks_per_hour).

Definition city_date (ticks_per_hour : Z) (r : Row) : string * Z :=
  (city r, date_of ticks_per_hour (time r)).

Definition city_hour (ticks_per_hour : Z) (r : Row) : string * Z :=
  (city r, hour_of ticks_per_hour (time r)).

(** [df.groupby([...])] on the temperature column: for every pair of key
    values that occurs, the temperatures of its rows, in the order of the
    frame. *)
Definition group_temps (key : Row -> string * Z) (fr : DataFrame)
  : gmap (string * Z) (list Z) :=
  fold_left (fun groups p =>
               <[key (snd p) := default [] (groups !! key (snd p)) ++ [temp (snd p)]]>
                 groups)
            fr ∅.

(** [sorted] on numbers, for the column labels of a pivot. *)
Definition sorted_numbers (l : list Z) : list Z := merge_sort Z.le l.

(** The table [pivot] makes: its row labels, its column labels, and its
    cells (a pair that does not occur has no value). *)
Record Pivot (M : Type) : Type := {
  pivot_index : list string;
  pivot_columns : list Z;
  pivot_cell : string -> Z -> option M
}.
Arguments pivot_index {M} _.
Arguments pivot_columns {M} _.
Arguments pivot_cell {M} _ _ _.

(** [.agg(avg_temp=("temp", "mean")).reset_index()] followed by
    [.pivot(index="city", columns=..., values="avg_temp")]. The mean is a
    function of the temperatures of a group in their order; it is left
    open. *)
Definition pivot_mean {M : Type} (mean : list Z -> M) (key : Row -> string * Z)
    (fr : DataFrame) : Pivot M :=
  let groups := group_temps key fr in
  let keys := map fst (map_to_list groups) in
  {| pivot_index := sorted (unique (map fst keys));
     pivot_columns := sorted_numbers (remove_dups (map snd keys));
     pivot_cell := fun c d => option_map mean (groups !! (c, d)) |}.

Definition pivot_daily {M : Type} (mean : list Z -> M) (ticks_per_hour : Z)
    (fr : DataFrame) : Pivot M :=
  pivot_mean mean (city_date ticks_per_hour) fr.

Definition pivot_hourly {M : Type} (mean : list Z -> M) (ticks_per_hour : Z)
    (fr : DataFrame) : Pivot M :=
  pivot_mean mean (city_hour ticks_per_hour) fr.

(* ===================================================================== *)
(** * Notions used to state the properties *)
(* ===================================================================== *)

(** [p] is the position of the first greatest element of [l]. *)
Definition first_max (l : list Z) (p : nat) : Prop :=
  exists m, l !! p = Some m
            /\ (forall j x, l !! j = Some x -> x <= m)
            /\ (forall j x, (j < p)%nat -> l !! j = Some x -> x < m).

(** [r] is a row of [fr] whose [col] is greatest, and no row with the same
    [col] has an earlier timestamp. *)
Definition is_extreme (col : Row -> Z) (fr : DataFrame) (r : Row) : Prop :=
  In r (rows fr)
  /\ (forall r', In r' (rows fr) -> col r' <= col r)
  /\ (forall r', In r' (rows fr) -> col r' = col r -> time r <= time r').

(** The frames the loop keeps: those returned without an exception and not
    empty. *)
Definition successes (obs : list (City * Result DataFrame)) : list DataFrame :=
  flat_map (fun cr => match snd cr with
                      | Ok fr => if empty fr then [] else [fr]
                      | Raise _ => []
                      end) obs.

(** The per-city messages of line 116. *)
Definition failures (obs : list (City * Result DataFrame)) : Errors :=
  flat_map (fun cr => match snd cr with
                      | Ok _ => []
                      | Raise e => [(fst cr, e)]
                      end) obs.

(** The request and the memo key of the call at line 112. *)
Definition request_for (days_back : Z) (c : City) : Request :=
  {| latitude := lat (CITIES c); longitude := lon (CITIES c); past_days := days_back |}.

Definition key_for (days_back : Z) (c : City) : Key :=
  (city_name c, lat (CITIES c), lon (CITIES c), days_back).

Inductive SpecError : Type :=
| NetworkError
| ScheduleTimeout
| MalformedResponseError.

(** Section 7 of the specification read over the exceptions of the code:
    connection and status failures, the timeout, and everything raised
    while the body is read. *)
Definition taxonomy (e : Exn) : SpecError :=
  match e with
  | ConnectionError => NetworkError
  | HTTPError _ => NetworkError
  | ReadTimeout => ScheduleTimeout
  | JSONDecodeError => MalformedResponseError
  | KeyError _ => MalformedResponseError
  | ValueError => MalformedResponseError
  end.

(** The order the specification words for the merged set: timestamp
    ascending, ties broken by city name. *)
Definition by_time_then_city (r1 r2 : Row) : Prop :=
  time r1 < time r2 \/ (time r1 = time r2 /\ String.leb (city r1) (city r2) = true).

Definition by_time (r1 r2 : Row) : Prop := time r1 <= time r2.

(** The four members read from [hourly], in the order of lines 87-90. *)
Definition hourly_keys : list string :=
  ["time"; "temperature_2m"; "windspeed_10m"; "winddirection_10m"]%string.

(** Every stored frame holds rows of the city it is stored for. *)
Definition cache_wf (w : World) : Prop :=
  forall name lat lon days_back e,
    mem_cache w !! (name, lat, lon, days_back) = Some e ->
    Forall (fun r => city r = name) (rows (value e)).

(** The page made of what the loop collected (lines 118-177). *)
Definition page_of {S : ArgSort} (collected : list DataFrame * Errors) : Page :=
  match fst collected with
  | [] => StoppedNoData (snd collected)
  | _ :: _ =>
      match derive (fst collected) with
      | Ok v => Rendered (snd collected) v
      | Raise e => Uncaught (snd collected) e
      end
  end.

(** The cities whose call returned a frame that is not empty. *)
Definition answered (obs : list (City * Result DataFrame)) : list City :=
  flat_map (fun cr => match snd cr with
                      | Ok fr => if empty fr then [] else [fst cr]
                      | Raise _ => []
                      end) obs.

(** The rows of a group. *)
Definition group_rows (key : Row -> string * Z) (fr : DataFrame) (k : string * Z)
  : list Row :=
  List.filter (fun r => bool_decide (key r = k)) (rows fr).

(** The errors a page shows. *)
Definition page_errors (p : Page) : Errors :=
  match p with
  | StoppedNoSelection => []
  | StoppedNoData errors => errors
  | Rendered errors _ => errors
  | Uncaught errors _ => errors
  end.

(* ===================================================================== *)
(** * A concrete world *)
(* ===================================================================== *)

Definition series (times temps winds winddirs : list Z) : gmap string (list Z) :=
  <["time"%string := times]>
    (<["temperature_2m"%string := temps]>
       (<["windspeed_10m"%string := winds]>
          {["winddirection_10m"%string := winddirs]})).

Definition ok_json (h : Hourly) : HttpOutcome :=
  Responded {| status_code := 200; body := Some h |}.

(** Two hourly readings for Riyadh and for Jeddah at the same two instants
    (the earlier reading is the hotter one in Riyadh), no connection for
    Dammam, and a payload without series for Abha. Every request takes a
    millisecond. *)
Definition demo_net : Network := fun _ rq =>
  (1000000%N,
   if latitude rq =? lat (CITIES Riyadh)
   then ok_json (HourlyObj (series [0; 3600] [410; 395] [30; 40] [90; 95]))
   else if latitude rq =? lat (CITIES Jeddah)
   then ok_json (HourlyObj (series [0; 3600] [380; 385] [90; 80] [180; 170]))
   else if latitude rq =? lat (CITIES Dammam)
   then ConnectionFailed
   else ok_json (HourlyObj ∅)).

Definition cold : World := {| mem_cache := ∅; clock := 0; requests_sent := [] |}.

Definition mk_row (c : string) (t a b d : Z) : Row :=
  {| city := c; time := t; temp := a; windspeed := b; winddirection := d |}.

(** The observations of the specification's example for the extremes. *)
Definition spec_frames : list DataFrame :=
  [ [(0%nat, mk_row "Riyadh" 0 410 30 90)]; [(0%nat, mk_row "Jeddah" 0 380 90 180)] ].

Definition riyadh_frame : DataFrame :=
  [(0%nat, mk_row "Riyadh" 0 410 30 90); (1%nat, mk_row "Riyadh" 3600 395 40 95)].

Definition jeddah_frame : DataFrame :=
  [(0%nat, mk_row "Jeddah" 0 380 90 180); (1%nat, mk_row "Jeddah" 3600 385 80 170)].

(** What the insertion routine makes of the two frames above. *)
Definition demo_views : Views :=
  {| df := [(0%nat, mk_row "Riyadh" 0 410 30 90);
            (2%nat, mk_row "Jeddah" 0 380 90 180);
            (1%nat, mk_row "Riyadh" 3600 395 40 95);
            (3%nat, mk_row "Jeddah" 3600 385 80 170)];
     num_cities := 2;
     num_records := 4;
     hottest_row := mk_row "Riyadh" 0 410 30 90;
     windiest_row := mk_row "Jeddah" 0 380 90 180;
     latest_rows := [(3%nat, mk_row "Jeddah" 3600 385 80 170);
                     (1%nat, mk_row "Riyadh" 3600 395 40 95)] |}.

Definition riyadh_request : Request := request_for 1 Riyadh.

(** The world after a first call for Riyadh from [cold]. *)
Definition after_riyadh : World :=
  cache_store (key_for 1 Riyadh) riyadh_frame
    {| mem_cache := ∅; clock := 1000000; requests_sent := [riyadh_request] |}.

(** The world after a first call for Dammam from [cold]: the call raised,
    nothing was stored. *)
Definition after_dammam : World :=
  {| mem_cache := ∅; clock := 1000000; requests_sent := [request_for 1 Dammam] |}.

(** A payload with timestamps only. *)
Definition times_only : gmap string (list Z) := {["time"%string := [0; 3600]]}.

(** The sum and the count of a group, for a mean. *)
Definition sum_and_count (temps : list Z) : Z * nat :=
  (fold_left Z.add temps 0, length temps).

(* ===================================================================== *)
(** * Lists, positions and indexers *)
(* ===================================================================== *)

Lemma lookup_map {A B : Type} (f : A -> B) (l : list A) (i : nat) :
  map f l !! i = option_map f (l !! i).
Proof.
  revert i. induction l as [|x l IH]; intros [|i]; simpl; auto.
Qed.

Lemma take_map {A B : Type} (f : A -> B) (idx : list nat) (l : list A) :
  take idx (map f l) = map f (take idx l).
Proof.
  unfold take. induction idx as [|i idx IH]; simpl; [reflexivity|].
  rewrite lookup_map. destruct (l !! i); simpl; [f_equal|]; exact IH.
Qed.

Lemma take_seq_app {A : Type} (l1 l2 : list A) :
  take (seq (length l1) (length l2)) (l1 ++ l2) = l2.
Proof.
  revert l1. induction l2 as [|x l2 IH]; intros l1; [reflexivity|].
  simpl. rewrite list_lookup_middle by reflexivity. simpl. f_equal.
  specialize (IH (l1 ++ [x])).
  rewrite length_app, Nat.add_1_r, <- app_assoc in IH. exact IH.
Qed.

Lemma take_seq {A : Type} (l : list A) : take (seq 0 (length l)) l = l.
Proof. exact (take_seq_app [] l). Qed.

Lemma take_perm {A : Type} (idx : list nat) (l : list A) :
  idx ≡ₚ seq 0 (length l) -> take idx l ≡ₚ l.
Proof.
  intros Hp. unfold take. rewrite Hp. fold (take (seq 0 (length l)) l).
  now rewrite take_seq.
Qed.

(** ** The insertion routine meets the contract of [ArgSort] *)

Section InsertionCorrect.
Context {K : Type} (le : K -> K -> bool) (ks : list K).
Hypothesis le_total : forall a b, le a b = true \/ le b a = true.

Lemma insert_index_perm (i : nat) (s : list nat) :
  insert_index le ks i s ≡ₚ i :: s.
Proof.
  induction s as [|j s IH]; simpl; [reflexivity|].
  destruct (key_lt le ks i j); [reflexivity|].
  rewrite IH. apply perm_swap.
Qed.

Lemma insert_index_hd (i j : nat) (s : list nat) :
  (key_le le ks) j i -> HdRel (key_le le ks) j s -> HdRel (key_le le ks) j (insert_index le ks i s).
Proof.
  intros Hji Hs. destruct s as [|k s]; simpl.
  - constructor. exact Hji.
  - destruct (key_lt le ks i k); constructor; auto.
    now inversion Hs.
Qed.

Lemma insert_index_sorted (i : nat) (s : list nat) :
  (i < length ks)%nat -> Forall (fun j => (j < length ks)%nat) s ->
  Sorted (key_le le ks) s -> Sorted (key_le le ks) (insert_index le ks i s).
Proof.
  intros Hi Hin Hs. induction Hs as [|j s Hs IH Hhd]; simpl.
  - repeat constructor.
  - inversion Hin as [|? ? Hj Hin']; subst.
    destruct (lookup_lt_is_Some_2 ks i Hi) as [a Ha].
    destruct (lookup_lt_is_Some_2 ks j Hj) as [b Hb].
    unfold key_lt. rewrite Ha, Hb.
    destruct (le b a) eqn:Hba; simpl.
    + constructor; [now apply IH|].
      apply insert_index_hd; [|exact Hhd]. now exists b, a.
    + constructor; [now constructor|]. constructor.
      exists a, b. destruct (le_total a b); [auto|congruence].
Qed.

Lemma insertion_fold_perm (l acc : list nat) :
  fold_left (fun acc i => insert_index le ks i acc) l acc ≡ₚ acc ++ l.
Proof.
  revert acc. induction l as [|i l IH]; intros acc; simpl.
  - now rewrite app_nil_r.
  - rewrite IH, insert_index_perm. simpl. apply Permutation_middle.
Qed.

Lemma insertion_fold_sorted (l acc : list nat) :
  Forall (fun j => (j < length ks)%nat) l ->
  Forall (fun j => (j < length ks)%nat) acc ->
  Sorted (key_le le ks) acc ->
  Sorted (key_le le ks) (fold_left (fun acc i => insert_index le ks i acc) l acc).
Proof.
  revert acc. induction l as [|i l IH]; intros acc Hl Hacc Hs; simpl; [exact Hs|].
  inversion Hl as [|? ? Hi Hl']; subst.
  apply IH; auto.
  - rewrite insert_index_perm. now constructor.
  - now apply insert_index_sorted.
Qed.

Lemma take_sorted (idx : list nat) :
  Sorted (key_le le ks) idx -> Sorted (fun a b => le a b = true) (take idx ks).
Proof.
  induction 1 as [|i idx Hs IH Hhd]; [constructor|].
  unfold take in *. simpl. destruct (ks !! i) as [a|] eqn:Ha; [|exact IH].
  constructor; [exact IH|].
  destruct Hhd as [|j idx' (a' & b & Ha' & Hb & Hab)]; simpl; [constructor|].
  rewrite Hb. constructor. congruence.
Qed.

Lemma insertion_argsort_perm : insertion_argsort le ks ≡ₚ seq 0 (length ks).
Proof. unfold insertion_argsort. now rewrite insertion_fold_perm. Qed.

Lemma insertion_argsort_sorted :
  Sorted (fun a b => le a b = true) (take (insertion_argsort le ks) ks).
Proof.
  apply take_sorted. unfold insertion_argsort.
  apply insertion_fold_sorted; [|constructor|constructor].
  apply Forall_forall. intros j Hj. apply elem_of_seq in Hj. lia.
Qed.
End InsertionCorrect.

(** The insertion routine as an instance of the contract. *)
#[global] Instance insertion_sort : ArgSort := {|
  argsort := fun K le ks => insertion_argsort le ks;
  argsort_perm := fun K le ks => insertion_argsort_perm le ks;
  argsort_sorted := fun K le ks Htot _ => insertion_argsort_sorted le ks Htot
|}.

(* ===================================================================== *)
(** * Orders on the two sort keys *)
(* ===================================================================== *)

Lemma Zleb_total (a b : Z) : (a <=? b) = true \/ (b <=? a) = true.
Proof. destruct (Z.leb_spec a b); [now left|right]. apply Z.leb_le. lia. Qed.

Lemma Zleb_trans (a b c : Z) :
  (a <=? b) = true -> (b <=? c) = true -> (a <=? c) = true.
Proof. rewrite !Z.leb_le. lia. Qed.

Lemma ascii_compare_refl (a : Ascii.ascii) : Ascii.compare a a = Eq.
Proof. unfold Ascii.compare. apply N.compare_refl. Qed.

Lemma ascii_compare_Lt_trans (a b c : Ascii.ascii) :
  Ascii.compare a b = Lt -> Ascii.compare b c = Lt -> Ascii.compare a c = Lt.
Proof. unfold Ascii.compare. rewrite !N.compare_lt_iff. lia. Qed.

Lemma string_compare_not_Gt_trans (s1 s2 s3 : string) :
  String.compare s1 s2 <> Gt -> String.compare s2 s3 <> Gt ->
  String.compare s1 s3 <> Gt.
Proof.
  revert s2 s3. induction s1 as [|c1 s1 IH]; intros [|c2 s2] [|c3 s3]; simpl;
    try congruence.
  destruct (Ascii.compare c1 c2) eqn:H12; try congruence;
    destruct (Ascii.compare c2 c3) eqn:H23; try congruence; intros Ha Hb.
  - apply Ascii.compare_eq_iff in H12, H23. subst.
    rewrite ascii_compare_refl. now apply (IH s2).
  - apply Ascii.compare_eq_iff in H12. subst. now rewrite H23.
  - apply Ascii.compare_eq_iff in H23. subst. now rewrite H12.
  - now rewrite (ascii_compare_Lt_trans _ _ _ H12 H23).
Qed.

Lemma string_leb_trans (a b c : string) :
  String.leb a b = true -> String.leb b c = true -> String.leb a c = true.
Proof.
  unfold String.leb. intros Hab Hbc.
  pose proof (string_compare_not_Gt_trans a b c) as H.
  destruct (String.compare a b); destruct (String.compare b c);
    destruct (String.compare a c); try reflexivity; try discriminate;
    exfalso; apply H; congruence.
Qed.

Lemma string_leb_ne_ltb (a b : string) :
  String.leb a b = true -> a <> b -> String.ltb a b = true.
Proof.
  unfold String.leb, String.ltb. intros Hle Hne.
  destruct (String.compare a b) eqn:Hc; try reflexivity; try discriminate.
  apply String.compare_eq_iff in Hc. contradiction.
Qed.

(* ===================================================================== *)
(** * Frames: labels, concatenation, sorting *)
(* ===================================================================== *)

Lemma rows_range_index (rs : list Row) : rows (range_index rs) = rs.
Proof.
  unfold rows, range_index. generalize 0%nat.
  induction rs as [|r rs IH]; intros n; simpl; [reflexivity|]. now rewrite IH.
Qed.

Lemma index_range_index (rs : list Row) :
  index (range_index rs) = seq 0 (length rs).
Proof.
  unfold index, range_index. generalize 0%nat.
  induction rs as [|r rs IH]; intros n; simpl; [reflexivity|]. now rewrite IH.
Qed.

Lemma length_range_index (rs : list Row) : length (range_index rs) = length rs.
Proof. rewrite <- (rows_range_index rs) at 2. unfold rows. now rewrite length_map. Qed.

Section SortValues.
Context {S : ArgSort} {K : Type} (le : K -> K -> bool) (by_ : Row -> K).
Hypothesis le_total : forall a b, le a b = true \/ le b a = true.
Hypothesis le_trans : forall a b c, le a b = true -> le b c = true -> le a c = true.

Lemma sort_values_perm (fr : DataFrame) : sort_values le by_ fr ≡ₚ fr.
Proof.
  unfold sort_values. apply take_perm.
  rewrite argsort_perm. now rewrite length_map.
Qed.

Lemma sort_values_rows_perm (fr : DataFrame) :
  rows (sort_values le by_ fr) ≡ₚ rows fr.
Proof. unfold rows. now rewrite sort_values_perm. Qed.

Lemma sort_values_index_perm (fr : DataFrame) :
  index (sort_values le by_ fr) ≡ₚ index fr.
Proof. unfold index. now rewrite sort_values_perm. Qed.

Lemma sort_values_length (fr : DataFrame) :
  length (sort_values le by_ fr) = length fr.
Proof. now rewrite sort_values_perm. Qed.

Lemma sort_values_sorted (fr : DataFrame) :
  Sorted (fun a b => le a b = true)
         (map (fun p => by_ (snd p)) (sort_values le by_ fr)).
Proof.
  unfold sort_values. rewrite <- take_map.
  now apply argsort_sorted.
Qed.

Lemma sort_values_strongly_sorted (fr : DataFrame) :
  StronglySorted (fun a b => le a b = true)
                 (map (fun p => by_ (snd p)) (sort_values le by_ fr)).
Proof.
  apply Sorted.Sorted_StronglySorted; [|apply sort_values_sorted].
  intros a b c. apply le_trans.
Qed.
End SortValues.

Lemma merge_rows_perm {S : ArgSort} (all_dfs : list DataFrame) :
  rows (merge all_dfs) ≡ₚ concat (map rows all_dfs).
Proof.
  unfold merge. rewrite sort_values_rows_perm.
  unfold concat_ignore_index. now rewrite rows_range_index.
Qed.

Lemma merge_index_NoDup {S : ArgSort} (all_dfs : list DataFrame) :
  NoDup (index (merge all_dfs)).
Proof.
  unfold merge. rewrite sort_values_index_perm.
  unfold concat_ignore_index. rewrite index_range_index. apply NoDup_seq.
Qed.

Lemma merge_sorted {S : ArgSort} (all_dfs : list DataFrame) :
  StronglySorted (fun a b => (a <=? b) = true) (map time (rows (merge all_dfs))).
Proof.
  unfold merge, rows. rewrite map_map.
  apply (sort_values_strongly_sorted Z.leb time Zleb_total Zleb_trans).
Qed.

Lemma merge_length {S : ArgSort} (all_dfs : list DataFrame) :
  length (merge all_dfs) = length (concat (map rows all_dfs)).
Proof.
  unfold merge. rewrite sort_values_length.
  unfold concat_ignore_index. apply length_range_index.
Qed.

(* ===================================================================== *)
(** * [idxmax] and [loc] *)
(* ===================================================================== *)

Lemma argmax_from_spec (pre xs : list Z) (best_pos : nat) (best : Z) :
  pre !! best_pos = Some best ->
  (forall j x, pre !! j = Some x -> x <= best) ->
  (forall j x, (j < best_pos)%nat -> pre !! j = Some x -> x < best) ->
  first_max (pre ++ xs) (argmax_from best_pos best (length pre) xs).
Proof.
  revert pre best_pos best.
  induction xs as [|x xs IH]; intros pre best_pos best Hb Hle Hlt; simpl.
  - rewrite app_nil_r. now exists best.
  - assert (Hpre : pre ++ x :: xs = (pre ++ [x]) ++ xs) by now rewrite <- app_assoc.
    assert (Hlen : S (length pre) = length (pre ++ [x]))
      by (rewrite length_app; simpl; lia).
    rewrite Hpre, Hlen.
    destruct (Z.ltb_spec best x) as [Hlt'|Hge]; apply IH.
    + now rewrite list_lookup_middle.
    + intros j y Hj. destruct (decide (j < length pre)%nat) as [Hjl|Hjl].
      * rewrite lookup_app_l in Hj by exact Hjl. specialize (Hle _ _ Hj). lia.
      * rewrite lookup_app_r in Hj by lia.
        destruct (j - length pre)%nat as [|k]; simpl in Hj; [|discriminate].
        injection Hj as ->. lia.
    + intros j y Hjp Hj. rewrite lookup_app_l in Hj by exact Hjp.
      specialize (Hle _ _ Hj). lia.
    + rewrite lookup_app_l; [exact Hb|]. now apply lookup_lt_Some in Hb.
    + intros j y Hj. destruct (decide (j < length pre)%nat) as [Hjl|Hjl].
      * rewrite lookup_app_l in Hj by exact Hjl. eauto.
      * rewrite lookup_app_r in Hj by lia.
        destruct (j - length pre)%nat as [|k]; simpl in Hj; [|discriminate].
        injection Hj as ->. lia.
    + intros j y Hjp Hj. apply lookup_lt_Some in Hb.
      rewrite lookup_app_l in Hj by lia. eauto.
Qed.

Lemma argmax_spec (l : list Z) :
  l <> [] -> exists p, argmax l = Some p /\ first_max l p.
Proof.
  destruct l as [|x xs]; [congruence|]. intros _. simpl.
  eexists. split; [reflexivity|].
  apply (argmax_from_spec [x] xs 0 x); [reflexivity| |].
  - intros [|j] y Hj; simpl in Hj; [injection Hj as ->; lia|discriminate].
  - intros j y Hj. lia.
Qed.

Lemma filter_label_NoDup (fr : DataFrame) (label : nat) (r : Row) :
  NoDup (index fr) -> In (label, r) fr ->
  List.filter (fun p => (fst p =? label)%nat) fr = [(label, r)].
Proof.
  unfold index. induction fr as [|[l0 r0] fr IH]; simpl; [tauto|].
  intros Hnd Hin. apply NoDup_cons in Hnd as [Hnotin Hnd].
  assert (Hnone : forall q, In q fr -> fst q <> l0).
  { intros q Hq Heq. apply Hnotin. rewrite <- Heq.
    apply list_elem_of_In. now apply in_map. }
  destruct (Nat.eqb_spec l0 label) as [->|Hne].
  - f_equal.
    + destruct Hin as [Heq|Hin]; [exact Heq|]. now destruct (Hnone _ Hin).
    + clear -Hnone. induction fr as [|q fr IH]; simpl; [reflexivity|].
      destruct (Nat.eqb_spec (fst q) label) as [Heq|_].
      * destruct (Hnone q (or_introl eq_refl) Heq).
      * apply IH. intros q' Hq'. apply Hnone. now right.
  - apply IH; [exact Hnd|]. destruct Hin as [Heq|Hin]; [congruence|exact Hin].
Qed.

Lemma loc_at (fr : DataFrame) (p label : nat) (r : Row) :
  NoDup (index fr) -> fr !! p = Some (label, r) -> loc fr label = Ok r.
Proof.
  intros Hnd Hp. unfold loc.
  rewrite (filter_label_NoDup fr label r Hnd); [reflexivity|].
  apply list_elem_of_In. eapply list_elem_of_lookup_2. exact Hp.
Qed.

(** The row picked by [df.loc[df[col].idxmax()]]. *)
Lemma extreme_row (col : Row -> Z) (fr : DataFrame) :
  fr <> [] -> NoDup (index fr) ->
  exists p label r,
    idxmax col fr = Ok label /\ loc fr label = Ok r /\ fr !! p = Some (label, r)
    /\ (forall j q, fr !! j = Some q -> col (snd q) <= col r)
    /\ (forall j q, (j < p)%nat -> fr !! j = Some q -> col (snd q) < col r).
Proof.
  intros Hne Hnd.
  destruct (argmax_spec (map (fun p => col (snd p)) fr)) as (p & Hp & m & Hm & Hle & Hlt).
  { destruct fr; [congruence|discriminate]. }
  rewrite lookup_map in Hm. destruct (fr !! p) as [[label r]|] eqn:Hfr;
    simpl in Hm; [|discriminate].
  injection Hm as <-.
  exists p, label, r. unfold idxmax. rewrite Hp. unfold index.
  rewrite lookup_map, Hfr. simpl. repeat split.
  - now apply (loc_at fr p).
  - intros j q Hj. apply (Hle j). now rewrite lookup_map, Hj.
  - intros j q Hjp Hj. apply (Hlt j); [exact Hjp|]. now rewrite lookup_map, Hj.
Qed.

Lemma StronglySorted_lookup {A : Type} (R : A -> A -> Prop) (l : list A)
    (i j : nat) (a b : A) :
  StronglySorted R l -> (i < j)%nat -> l !! i = Some a -> l !! j = Some b -> R a b.
Proof.
  intros Hs. revert i j. induction Hs as [|x l Hs IH Hall]; intros i j Hij Hi Hj.
  - discriminate.
  - destruct j as [|j]; [lia|]. simpl in Hj. destruct i as [|i]; simpl in Hi.
    + injection Hi as ->. rewrite Forall_forall in Hall. apply Hall.
      eapply list_elem_of_lookup_2. exact Hj.
    + apply (IH i j); [lia|exact Hi|exact Hj].
Qed.

(* ===================================================================== *)
(** * Extremes (lines 142-143) *)
(* ===================================================================== *)

Lemma In_rows_lookup (fr : DataFrame) (r : Row) :
  In r (rows fr) <-> exists j label, fr !! j = Some (label, r).
Proof.
  unfold rows. rewrite in_map_iff. split.
  - intros ([label r'] & Hr & Hin). simpl in Hr. subst r'.
    apply list_elem_of_In, list_elem_of_lookup_1 in Hin as [j Hj]. eauto.
  - intros (j & label & Hj). exists (label, r). split; [reflexivity|].
    apply list_elem_of_In. eapply list_elem_of_lookup_2. exact Hj.
Qed.

Lemma extreme_in_sorted (col : Row -> Z) (fr : DataFrame) :
  fr <> [] -> NoDup (index fr) ->
  StronglySorted (fun a b => (a <=? b) = true) (map time (rows fr)) ->
  exists label r,
    idxmax col fr = Ok label /\ loc fr label = Ok r /\ is_extreme col fr r.
Proof.
  intros Hne Hnd Hs.
  destruct (extreme_row col fr Hne Hnd) as (p & label & r & Hi & Hl & Hp & Hle & Hlt).
  exists label, r. split; [exact Hi|]. split; [exact Hl|]. repeat split.
  - apply In_rows_lookup. eauto.
  - intros r' Hr'. apply In_rows_lookup in Hr' as (j & l' & Hj).
    apply (Hle j (l', r') Hj).
  - intros r' Hr' Heq. apply In_rows_lookup in Hr' as (j & l' & Hj).
    destruct (lt_eq_lt_dec j p) as [[Hjp|Hjp]|Hjp].
    + specialize (Hlt j (l', r') Hjp Hj). simpl in Hlt. lia.
    + subst j. rewrite Hp in Hj. injection Hj as _ <-. lia.
    + apply Z.leb_le.
      apply (StronglySorted_lookup _ _ p j (time r) (time r') Hs Hjp);
        unfold rows; rewrite !lookup_map.
      * now rewrite Hp.
      * now rewrite Hj.
Qed.

(** The views on a non-empty merged frame. *)
Lemma derive_views {S : ArgSort} (all_dfs : list DataFrame) :
  merge all_dfs <> [] ->
  exists v, derive all_dfs = Ok v
            /\ df v = merge all_dfs
            /\ latest_rows v = latest_snapshot (merge all_dfs)
            /\ is_extreme temp (df v) (hottest_row v)
            /\ is_extreme windspeed (df v) (windiest_row v).
Proof.
  intros Hne.
  pose proof (merge_index_NoDup all_dfs) as Hnd.
  pose proof (merge_sorted all_dfs) as Hs.
  destruct (extreme_in_sorted temp _ Hne Hnd Hs) as (l1 & hot & Hi1 & Hl1 & Hx1).
  destruct (extreme_in_sorted windspeed _ Hne Hnd Hs) as (l2 & wind & Hi2 & Hl2 & Hx2).
  unfold derive. rewrite Hi1. simpl. rewrite Hl1. simpl.
  rewrite Hi2. simpl. rewrite Hl2. simpl.
  eexists. split; [reflexivity|]. simpl. auto.
Qed.

Lemma derive_inv {S : ArgSort} (all_dfs : list DataFrame) (v : Views) :
  derive all_dfs = Ok v ->
  df v = merge all_dfs /\ latest_rows v = latest_snapshot (merge all_dfs).
Proof.
  unfold derive, bind_result. intros Hd.
  destruct (idxmax temp (merge all_dfs)); [|discriminate].
  destruct (loc (merge all_dfs) _); [|discriminate].
  destruct (idxmax windspeed (merge all_dfs)); [|discriminate].
  destruct (loc (merge all_dfs) _); [|discriminate].
  injection Hd as <-. auto.
Qed.

(* ===================================================================== *)
(** * The fetch loop in terms of what the calls returned *)
(* ===================================================================== *)

Lemma fetch_loop_observed (net : Network) (days_back : Z) (sel : list City)
    (all_dfs : list DataFrame) (errors : Errors) (w : World) :
  exists w', fetch_loop net days_back sel all_dfs errors w
             = (all_dfs ++ successes (observed net days_back sel w),
                errors ++ failures (observed net days_back sel w), w').
Proof.
  revert all_dfs errors w. induction sel as [|c sel IH]; intros all_dfs errors w; simpl.
  - exists w. unfold successes, failures. simpl. now rewrite !app_nil_r.
  - destruct (fetch_for net days_back c w) as [[fr|e] w1]; simpl.
    + destruct fr as [|p fr]; simpl.
      * destruct (IH all_dfs errors w1) as [w' ->]. now exists w'.
      * destruct (IH (all_dfs ++ [p :: fr]) errors w1) as [w' ->]. exists w'.
        unfold successes, failures. simpl. now rewrite <- app_assoc.
    + destruct (IH all_dfs (errors ++ [(c, e)]) w1) as [w' ->]. exists w'.
      unfold successes, failures. simpl. now rewrite <- app_assoc.
Qed.

Lemma observed_cities (net : Network) (days_back : Z) (sel : list City) (w : World) :
  map fst (observed net days_back sel w) = sel.
Proof.
  revert w. induction sel as [|c sel IH]; intros w; simpl; [reflexivity|].
  destruct (fetch_for net days_back c w) as [r w1]. simpl. now rewrite IH.
Qed.

Lemma In_successes (obs : list (City * Result DataFrame)) (fr : DataFrame) :
  In fr (successes obs) <-> exists c, In (c, Ok fr) obs /\ empty fr = false.
Proof.
  unfold successes. rewrite in_flat_map. split.
  - intros ([c [fr'|e]] & Hin & Hfr); simpl in Hfr; [|tauto].
    destruct (empty fr') eqn:He; simpl in Hfr; [tauto|].
    destruct Hfr as [<-|[]]. eauto.
  - intros (c & Hin & He). exists (c, Ok fr). split; [exact Hin|].
    simpl. rewrite He. now left.
Qed.

Lemma In_failures (obs : list (City * Result DataFrame)) (c : City) (e : Exn) :
  In (c, e) (failures obs) <-> In (c, Raise e) obs.
Proof.
  unfold failures. rewrite in_flat_map. split.
  - intros ([c' [fr|e']] & Hin & Hce); simpl in Hce; [tauto|].
    destruct Hce as [Heq|[]]. now injection Heq as <- <-.
  - intros Hin. exists (c, Raise e). split; [exact Hin|]. now left.
Qed.

Lemma merge_nonempty {S : ArgSort} (all_dfs : list DataFrame) (fr : DataFrame) :
  In fr all_dfs -> empty fr = false -> merge all_dfs <> [].
Proof.
  intros Hin He Hm. pose proof (merge_length all_dfs) as Hlen.
  rewrite Hm in Hlen. simpl in Hlen.
  apply in_split in Hin as (l1 & l2 & ->).
  rewrite map_app, concat_app, length_app in Hlen. simpl in Hlen.
  rewrite length_app in Hlen. unfold rows in Hlen. rewrite length_map in Hlen.
  destruct fr; [discriminate|simpl in Hlen; lia].
Qed.

(** How [build] ends, in terms of the frames kept. *)
Lemma build_outcome {S : ArgSort} (net : Network) (sel : list City) (days_back : Z)
    (w : World) :
  let obs := observed net days_back sel w in
  exists w',
    (successes obs = [] /\ build net sel days_back w = (StoppedNoData (failures obs), w'))
    \/ (exists v, build net sel days_back w = (Rendered (failures obs) v, w')
                  /\ derive (successes obs) = Ok v
                  /\ df v = merge (successes obs)
                  /\ latest_rows v = latest_snapshot (merge (successes obs))).
Proof.
  intros obs. unfold build.
  destruct (fetch_loop_observed net days_back sel [] [] w) as [w' ->].
  fold obs. simpl. exists w'.
  destruct (successes obs) as [|fr frs] eqn:Hs; [left; auto|right].
  assert (Hfr : In fr (successes obs)) by (rewrite Hs; now left).
  apply In_successes in Hfr as (c & _ & He).
  destruct (derive_views (fr :: frs)) as (v & Hd & Hdf & Hl & _).
  { apply (merge_nonempty _ fr); [now left|exact He]. }
  rewrite Hd. exists v. auto.
Qed.

(* ===================================================================== *)
(** * Latest snapshot (lines 172-177) *)
(* ===================================================================== *)

Lemma later_in_group_zero (key : string) (rest : DataFrame) :
  later_in_group key rest = 0%nat <-> forall q, In q rest -> city (snd q) <> key.
Proof.
  unfold later_in_group. induction rest as [|q rest IH]; simpl.
  - split; [intros _ q []|reflexivity].
  - destruct (String.eqb_spec (city (snd q)) key) as [Heq|Hne]; simpl.
    + split; [discriminate|]. intros Hall. destruct (Hall q (or_introl eq_refl) Heq).
    + rewrite IH. split.
      * intros Hall q' [<-|Hq']; auto.
      * intros Hall q' Hq'. apply Hall. now right.
Qed.

Lemma tail1_keep (p : nat * Row) (rest : DataFrame) :
  (later_in_group (city (snd p)) rest <? 1)%nat = true
  <-> forall q, In q rest -> city (snd q) <> city (snd p).
Proof. rewrite Nat.ltb_lt, <- later_in_group_zero. lia. Qed.

Lemma tail1_In (fr : DataFrame) (p : nat * Row) :
  In p (groupby_city_tail 1 fr) -> In p fr.
Proof.
  induction fr as [|p0 fr IH]; simpl; [tauto|].
  destruct (later_in_group (city (snd p0)) fr <? 1)%nat; simpl; tauto.
Qed.

Lemma tail1_cities (fr : DataFrame) (p : nat * Row) :
  In p fr -> exists q, In q (groupby_city_tail 1 fr) /\ city (snd q) = city (snd p).
Proof.
  revert p. induction fr as [|p0 fr IH]; intros p; simpl; [tauto|].
  destruct (later_in_group (city (snd p0)) fr <? 1)%nat eqn:Hk.
  - intros [<-|Hin].
    + exists p0. split; [now left|reflexivity].
    + destruct (IH p Hin) as (q & Hq & Hc). exists q. split; [now right|exact Hc].
  - intros [<-|Hin].
    + assert (Hex : exists q, In q fr /\ city (snd q) = city (snd p0)).
      { destruct (later_in_group (city (snd p0)) fr) as [|n] eqn:Hn; [discriminate|].
        unfold later_in_group in Hn.
        destruct (List.filter _ fr) as [|q l] eqn:Hf; [discriminate|].
        assert (Hq : In q (List.filter (fun p => String.eqb (city (snd p)) (city (snd p0))) fr))
          by (rewrite Hf; now left).
        apply filter_In in Hq as [Hq Hc]. apply String.eqb_eq in Hc. eauto. }
      destruct Hex as (q & Hq & Hc). destruct (IH q Hq) as (q' & Hq' & Hc').
      exists q'. split; [exact Hq'|congruence].
    + exact (IH p Hin).
Qed.

Lemma tail1_NoDup_city (fr : DataFrame) :
  NoDup (map (fun p => city (snd p)) (groupby_city_tail 1 fr)).
Proof.
  induction fr as [|p0 fr IH]; simpl; [constructor|].
  destruct (later_in_group (city (snd p0)) fr <? 1)%nat eqn:Hk; [|exact IH].
  simpl. apply NoDup_cons. split; [|exact IH].
  intros Hin. apply list_elem_of_In, in_map_iff in Hin as (q & Hc & Hq).
  apply (proj1 (tail1_keep p0 fr) Hk q); [|exact Hc]. now apply tail1_In.
Qed.

Lemma tail1_latest (fr : DataFrame) (p q : nat * Row) :
  StronglySorted (fun a b => (a <=? b) = true) (map (fun p => time (snd p)) fr) ->
  In p (groupby_city_tail 1 fr) -> In q fr -> city (snd q) = city (snd p) ->
  time (snd q) <= time (snd p).
Proof.
  induction fr as [|p0 fr IH]; simpl; [tauto|].
  intros Hs Hp Hq Hc. apply StronglySorted_inv in Hs as [Hs Hall].
  assert (Hle : forall x, In x fr -> time (snd p0) <= time (snd x)).
  { intros x Hx. rewrite Forall_forall in Hall. apply Z.leb_le, Hall.
    apply list_elem_of_In. now apply (in_map (fun p => time (snd p))). }
  destruct (later_in_group (city (snd p0)) fr <? 1)%nat eqn:Hk.
  - destruct Hp as [<-|Hp].
    + destruct Hq as [<-|Hq]; [lia|].
      destruct (proj1 (tail1_keep p0 fr) Hk q Hq Hc).
    + destruct Hq as [<-|Hq]; [apply Hle; now apply tail1_In|now apply IH].
  - destruct Hq as [<-|Hq]; [apply Hle; now apply tail1_In|now apply IH].
Qed.

Lemma Sorted_leb_NoDup_ltb (l : list string) :
  Sorted (fun a b => String.leb a b = true) l -> NoDup l ->
  Sorted (fun a b => String.ltb a b = true) l.
Proof.
  induction 1 as [|a l Hs IH Hhd]; intros Hnd; [constructor|].
  apply NoDup_cons in Hnd as [Hnotin Hnd]. constructor; [now apply IH|].
  destruct Hhd as [|b l' Hab]; constructor.
  apply string_leb_ne_ltb; [exact Hab|]. intros ->. apply Hnotin. now left.
Qed.

(** The snapshot table of any frame. *)
Lemma latest_snapshot_spec {S : ArgSort} (fr : DataFrame) :
  let snap := latest_snapshot fr in
  NoDup (map city (rows snap))
  /\ (forall c, In c (map city (rows fr)) <-> In c (map city (rows snap)))
  /\ (forall r, In r (rows snap) ->
        In r (rows fr)
        /\ forall r', In r' (rows fr) -> city r' = city r -> time r' <= time r)
  /\ Sorted (fun a b => String.leb a b = true) (map city (rows snap)).
Proof.
  intros snap. unfold snap, latest_snapshot.
  set (sorted := sort_values Z.leb time fr).
  set (tails := groupby_city_tail 1 sorted).
  assert (Hperm : sort_values String.leb city tails ≡ₚ tails)
    by apply sort_values_perm.
  assert (Hsorted : sorted ≡ₚ fr) by apply sort_values_perm.
  assert (Hss : StronglySorted (fun a b => (a <=? b) = true)
                               (map (fun p => time (snd p)) sorted))
    by apply (sort_values_strongly_sorted Z.leb time Zleb_total Zleb_trans).
  assert (Hin_sorted : forall p, In p sorted <-> In p fr).
  { intros p. rewrite <- !list_elem_of_In. now rewrite Hsorted. }
  assert (Hin_snap : forall p, In p (sort_values String.leb city tails) <-> In p tails).
  { intros p. rewrite <- !list_elem_of_In. now rewrite Hperm. }
  unfold rows. rewrite !map_map. split; [|split; [|split]].
  - rewrite Hperm. apply tail1_NoDup_city.
  - intros c. split; intros Hc; apply in_map_iff in Hc as (p & <- & Hp).
    + apply Hin_sorted in Hp. destruct (tail1_cities sorted p Hp) as (q & Hq & Hcq).
      apply in_map_iff. exists q. split; [exact Hcq|]. now apply Hin_snap.
    + apply Hin_snap, tail1_In, Hin_sorted in Hp.
      apply in_map_iff. eauto.
  - intros r Hr. apply in_map_iff in Hr as (p & <- & Hp). split.
    + apply in_map_iff. exists p.
      split; [reflexivity|]. now apply Hin_sorted, tail1_In, Hin_snap.
    + intros r' Hr' Hc. apply in_map_iff in Hr' as (q & <- & Hq).
      apply (tail1_latest sorted p q Hss);
        [now apply Hin_snap|now apply Hin_sorted|exact Hc].
  - apply (sort_values_sorted String.leb city String.leb_total string_leb_trans).
Qed.

(* ===================================================================== *)
(** * The memoised fetcher *)
(* ===================================================================== *)

Lemma body_requests (net : Network) (name : string) (lat lon days_back : Z) (w : World) :
  requests_sent (snd (fetch_city_hourly_body net name lat lon days_back w))
  = requests_sent w
      ++ [{| latitude := lat; longitude := lon; past_days := days_back |}].
Proof.
  unfold fetch_city_hourly_body. now destruct (net (clock w) _) as [dt out].
Qed.

Lemma body_cache (net : Network) (name : string) (lat lon days_back : Z) (w : World) :
  mem_cache (snd (fetch_city_hourly_body net name lat lon days_back w)) = mem_cache w.
Proof.
  unfold fetch_city_hourly_body. now destruct (net (clock w) _) as [dt out].
Qed.

(** A call that finds no live entry sends exactly one request. *)
Lemma miss_requests (net : Network) (name : string) (lat lon days_back : Z) (w : World) :
  cache_lookup (name, lat, lon, days_back) w = None ->
  requests_sent (snd (fetch_city_hourly net name lat lon days_back w))
  = requests_sent w
      ++ [{| latitude := lat; longitude := lon; past_days := days_back |}].
Proof.
  intros Hmiss. unfold fetch_city_hourly. rewrite Hmiss.
  pose proof (body_requests net name lat lon days_back w) as Hb.
  destruct (fetch_city_hourly_body net name lat lon days_back w) as [[v|e] w1];
    exact Hb.
Qed.

(** A call changes the entries of no other key. *)
Lemma fetch_other_key (net : Network) (name : string) (lat lon days_back : Z)
    (w : World) (k : Key) :
  k <> (name, lat, lon, days_back) ->
  mem_cache (snd (fetch_city_hourly net name lat lon days_back w)) !! k
  = mem_cache w !! k.
Proof.
  intros Hk. unfold fetch_city_hourly.
  destruct (cache_lookup _ w); [reflexivity|].
  pose proof (body_cache net name lat lon days_back w) as Hb.
  destruct (fetch_city_hourly_body net name lat lon days_back w) as [[v|e] w1];
    simpl in *; [|now rewrite Hb].
  rewrite lookup_insert_ne by congruence. now rewrite Hb.
Qed.

Lemma cache_lookup_None_absent (k : Key) (w : World) :
  mem_cache w !! k = None -> cache_lookup k w = None.
Proof. unfold cache_lookup. now intros ->. Qed.

Lemma city_name_inj (c1 c2 : City) : city_name c1 = city_name c2 -> c1 = c2.
Proof. destruct c1, c2; simpl; intros Heq; try reflexivity; discriminate. Qed.

(** With no entry for any selected city, the loop sends one request per
    city, in the order of the selection. *)
Lemma fetch_loop_cold (net : Network) (days_back : Z) (sel : list City)
    (all_dfs : list DataFrame) (errors : Errors) (w : World) :
  NoDup sel ->
  (forall c, In c sel -> mem_cache w !! key_for days_back c = None) ->
  requests_sent (snd (fetch_loop net days_back sel all_dfs errors w))
  = requests_sent w ++ map (request_for days_back) sel.
Proof.
  revert all_dfs errors w.
  induction sel as [|c sel IH]; intros all_dfs errors w Hnd Hcold; simpl.
  - now rewrite app_nil_r.
  - apply NoDup_cons in Hnd as [Hnotin Hnd].
    assert (Hmiss : cache_lookup (key_for days_back c) w = None)
      by (apply cache_lookup_None_absent, Hcold; now left).
    pose proof (miss_requests net _ _ _ _ w Hmiss) as Hreq.
    assert (Hrest : forall c', In c' sel ->
              mem_cache (snd (fetch_for net days_back c w)) !! key_for days_back c' = None).
    { intros c' Hc'. unfold fetch_for. rewrite fetch_other_key.
      - apply Hcold. now right.
      - unfold key_for. intros Heq. injection Heq as Hn _ _.
        apply city_name_inj in Hn. subst c'. apply Hnotin. now apply list_elem_of_In. }
    unfold fetch_for in *. fold (key_for days_back c) in *.
    destruct (fetch_city_hourly net (city_name c) _ _ days_back w) as [[fr|e] w1];
      simpl in *.
    + destruct (empty fr); rewrite IH by assumption; rewrite Hreq;
        now rewrite <- app_assoc.
    + rewrite IH by assumption. rewrite Hreq. now rewrite <- app_assoc.
Qed.

(* ===================================================================== *)
(** * Fetcher: the parse of the response *)
(* ===================================================================== *)

Lemma zip4_lookup (name : string) (times temps winds winddirs : list Z)
    (i : nat) (t a b c : Z) :
  times !! i = Some t -> temps !! i = Some a ->
  winds !! i = Some b -> winddirs !! i = Some c ->
  zip4 name times temps winds winddirs !! i
  = Some {| city := name; time := t; temp := a; windspeed := b; winddirection := c |}.
Proof.
  unfold zip4. revert i temps winds winddirs.
  induction times as [|t0 times IH]; intros [|i] [|a0 temps] [|b0 winds] [|c0 winddirs];
    simpl; try discriminate.
  - now intros [= ->] [= ->] [= ->] [= ->].
  - apply IH.
Qed.

Lemma zip4_length (name : string) (times temps winds winddirs : list Z) :
  length temps = length times -> length winds = length times ->
  length winddirs = length times ->
  length (zip4 name times temps winds winddirs) = length times.
Proof.
  intros H1 H2 H3. unfold zip4.
  rewrite length_map, !length_combine. lia.
Qed.

Lemma combine_seq_lookup (rs : list Row) (n i : nat) (r : Row) :
  rs !! i = Some r -> combine (seq n (length rs)) rs !! i = Some ((n + i)%nat, r).
Proof.
  revert n i. induction rs as [|r0 rs IH]; intros n [|i]; simpl; try discriminate.
  - intros [= ->]. now rewrite Nat.add_0_r.
  - intros Hi. rewrite (IH (S n) i Hi). do 2 f_equal. lia.
Qed.

Lemma range_index_lookup (rs : list Row) (i : nat) (r : Row) :
  rs !! i = Some r -> range_index rs !! i = Some (i, r).
Proof. apply (combine_seq_lookup rs 0 i r). Qed.

(** C9. With the four series present: when their lengths differ the parse
    raises (the constructor's [ValueError], a malformed response in the
    taxonomy); when they agree it returns one row per position, made of the
    elements at that position. *)
Theorem C9_parallel_arrays (name : string) (status : Z)
    (m : gmap string (list Z)) (times temps winds winddirs : list Z) :
  ~ (400 <= status < 600) ->
  m !! "time"%string = Some times ->
  m !! "temperature_2m"%string = Some temps ->
  m !! "windspeed_10m"%string = Some winds ->
  m !! "winddirection_10m"%string = Some winddirs ->
  let out := Responded {| status_code := status; body := Some (HourlyObj m) |} in
  (~ (length temps = length times /\ length winds = length times
      /\ length winddirs = length times) ->
   parse_response name out = Raise ValueError
   /\ taxonomy ValueError = MalformedResponseError)
  /\ (length temps = length times /\ length winds = length times
      /\ length winddirs = length times ->
      exists fr, parse_response name out = Ok fr
                 /\ length fr = length times
                 /\ forall i t a b c,
                     times !! i = Some t -> temps !! i = Some a ->
                     winds !! i = Some b -> winddirs !! i = Some c ->
                     fr !! i = Some (i, {| city := name; time := t; temp := a;
                                           windspeed := b; winddirection := c |})).
Proof.
  intros Hst Ht Ha Hb Hc out.
  assert (Hparse : parse_response name out = make_frame name times temps winds winddirs).
  { unfold out, parse_response. simpl.
    replace ((400 <=? status) && (status <? 600)) with false
      by (symmetry; apply andb_false_iff; rewrite Z.leb_gt, Z.ltb_ge; lia).
    destruct (decide (m = ∅)) as [->|_]; [now rewrite lookup_empty in Ht|].
    unfold getitem. now rewrite Ht, Ha, Hb, Hc. }
  rewrite Hparse. unfold make_frame. split.
  - intros Hlen. split; [|reflexivity].
    destruct (Nat.eqb_spec (length temps) (length times)); simpl; [|reflexivity].
    destruct (Nat.eqb_spec (length winds) (length times)); simpl; [|reflexivity].
    destruct (Nat.eqb_spec (length winddirs) (length times)); simpl; [|reflexivity].
    tauto.
  - intros (H1 & H2 & H3).
    rewrite H1, H2, H3, !Nat.eqb_refl. simpl. eexists. split; [reflexivity|]. split.
    + rewrite length_range_index. now apply zip4_length.
    + intros i t a b c Hi1 Hi2 Hi3 Hi4.
      apply range_index_lookup. now apply zip4_lookup.
Qed.

(** C8. A response with a success status whose payload has no hourly
    series (the member is absent, null or an empty object) makes the
    fetcher return the empty frame, without an exception; and the loop,
    getting an empty frame for a city, goes on with [all_dfs] and the
    errors unchanged. *)
Theorem C8_no_series_is_skipped (net : Network) (name : string)
    (lat lon days_back status : Z) (h : Hourly) (w : World) :
  snd (net (clock w) {| latitude := lat; longitude := lon; past_days := days_back |})
  = Responded {| status_code := status; body := Some h |} ->
  ~ (400 <= status < 600) ->
  h = HourlyAbsent \/ h = HourlyNull \/ h = HourlyObj ∅ ->
  fst (fetch_city_hourly_body net name lat lon days_back w) = Ok []
  /\ forall c rest all_dfs errors w0 w1 fr,
      fetch_for net days_back c w0 = (Ok fr, w1) -> empty fr = true ->
      fetch_loop net days_back (c :: rest) all_dfs errors w0
      = fetch_loop net days_back rest all_dfs errors w1.
Proof.
  intros Hnet Hst Hh. split.
  - unfold fetch_city_hourly_body.
    destruct (net (clock w) _) as [dt out]. simpl in *. subst out.
    unfold parse_response. simpl.
    replace ((400 <=? status) && (status <? 600)) with false
      by (symmetry; apply andb_false_iff; rewrite Z.leb_gt, Z.ltb_ge; lia).
    destruct Hh as [->|[->| ->]]; reflexivity.
  - intros c rest all_dfs errors w0 w1 fr Hf He. simpl. rewrite Hf. now rewrite He.
Qed.

(* ===================================================================== *)
(** * Cache: hits within the time to live, and clearing *)
(* ===================================================================== *)

(** C6. Once a call has returned a value, an entry for its four arguments
    holds that value; a second call with the same arguments made while the
    clock reads less than the entry's creation time plus 300 seconds
    returns the stored value and leaves the world as it is (no request is
    sent). When the first call found no live entry, the entry was created
    by it and the two calls together send exactly one request. *)
Theorem C6_second_call_within_ttl (net : Network) (name : string)
    (lat lon days_back : Z) (w w1 : World) (v : DataFrame) :
  fetch_city_hourly net name lat lon days_back w = (Ok v, w1) ->
  let k := (name, lat, lon, days_back) in
  let rq := {| latitude := lat; longitude := lon; past_days := days_back |} in
  exists e,
    mem_cache w1 !! k = Some e /\ value e = v
    /\ (forall d : N,
          clock w1 + Z.of_N d < created_at e + ttl_seconds * ns_per_second ->
          fetch_city_hourly net name lat lon days_back (elapse d w1)
          = (Ok v, elapse d w1))
    /\ (cache_lookup k w = None ->
        created_at e = clock w1
        /\ forall d : N,
            Z.of_N d < ttl_seconds * ns_per_second ->
            requests_sent
              (snd (fetch_city_hourly net name lat lon days_back (elapse d w1)))
            = requests_sent w ++ [rq]).
Proof.
  intros Hcall k rq.
  assert (Hhit : forall e, mem_cache w1 !! k = Some e -> value e = v ->
            forall d : N,
              clock w1 + Z.of_N d < created_at e + ttl_seconds * ns_per_second ->
              fetch_city_hourly net name lat lon days_back (elapse d w1)
              = (Ok v, elapse d w1)).
  { intros e He Hv d Hd. unfold fetch_city_hourly, cache_lookup. simpl.
    fold k. rewrite He. unfold ttl.
    destruct (Z.ltb_spec (clock w1 + Z.of_N d)
                         (created_at e + ttl_seconds * ns_per_second)); [|lia].
    now rewrite Hv. }
  unfold fetch_city_hourly in Hcall. fold k in Hcall.
  destruct (cache_lookup k w) as [v0|] eqn:Hlk.
  - injection Hcall as -> ->. unfold cache_lookup in Hlk.
    destruct (mem_cache w1 !! k) as [e|] eqn:He; [|discriminate].
    destruct (clock w1 <? created_at e + ttl); [|discriminate].
    injection Hlk as Hv. exists e. split; [reflexivity|]. split; [exact Hv|].
    split; [now apply Hhit|discriminate].
  - pose proof (body_requests net name lat lon days_back w) as Hreq.
    destruct (fetch_city_hourly_body net name lat lon days_back w) as [[v0|e0] wb];
      [|discriminate].
    injection Hcall as -> <-. simpl in Hreq.
    exists {| value := v; created_at := clock wb |}. simpl.
    rewrite lookup_insert_eq. split; [reflexivity|]. split; [reflexivity|].
    assert (Hhit' := Hhit {| value := v; created_at := clock wb |}).
    simpl in Hhit'. rewrite lookup_insert_eq in Hhit'.
    specialize (Hhit' eq_refl eq_refl). split; [exact Hhit'|].
    intros _. split; [reflexivity|]. intros d Hd.
    rewrite Hhit' by lia. simpl. exact Hreq.
Qed.

Lemma build_world {S : ArgSort} (net : Network) (sel : list City) (days_back : Z)
    (w : World) :
  snd (build net sel days_back w) = snd (fetch_loop net days_back sel [] [] w).
Proof.
  unfold build. destruct (fetch_loop net days_back sel [] [] w) as [[all_dfs errors] w1].
  destruct all_dfs; [reflexivity|]. now destruct (derive _).
Qed.

(** C7. After [clear], however long after and whatever the entries were,
    a call sends a request for its arguments; and a run of the script with
    the refresh button pressed sends one request for every selected city. *)
Theorem C7_clear_forces_refetch (net : Network) (days_back : Z) (w : World) :
  (forall (name : string) (lat lon : Z) (d : N),
      requests_sent
        (snd (fetch_city_hourly net name lat lon days_back (elapse d (clear w))))
      = requests_sent w
          ++ [{| latitude := lat; longitude := lon; past_days := days_back |}])
  /\ forall (S : ArgSort) (sel : list City),
      NoDup sel ->
      requests_sent (snd (app net sel days_back true w))
      = requests_sent w ++ map (request_for days_back) sel.
Proof.
  split.
  - intros name lat lon d. rewrite miss_requests; [reflexivity|].
    apply cache_lookup_None_absent. simpl. apply lookup_empty.
  - intros S sel Hnd. unfold app. destruct sel as [|c sel]; simpl.
    + now rewrite app_nil_r.
    + rewrite build_world.
      rewrite (fetch_loop_cold net days_back (c :: sel) [] [] (clear w) Hnd);
        [reflexivity|].
      intros c' _. simpl. apply lookup_empty.
Qed.

(* ===================================================================== *)
(** * Aggregation: what a run yields *)
(* ===================================================================== *)

Lemma StronglySorted_by_time (rs : list Row) :
  StronglySorted (fun a b => (a <=? b) = true) (map time rs) ->
  StronglySorted by_time rs.
Proof.
  induction rs as [|r rs IH]; simpl; intros Hs; [constructor|].
  apply StronglySorted_inv in Hs as [Hs Hall]. constructor; [now apply IH|].
  rewrite Forall_forall in Hall. apply Forall_forall. intros r' Hr'.
  unfold by_time. apply Z.leb_le, Hall. apply list_elem_of_In, in_map.
  now apply list_elem_of_In.
Qed.

Lemma assoc_functional {A B : Type} (l : list (A * B)) (a : A) (x y : B) :
  NoDup (map fst l) -> In (a, x) l -> In (a, y) l -> x = y.
Proof.
  induction l as [|[a0 b0] l IH]; simpl; [tauto|].
  intros Hnd Hx Hy. apply NoDup_cons in Hnd as [Hnotin Hnd].
  assert (Hfresh : forall z, In (a0, z) l -> False).
  { intros z Hz. apply Hnotin, list_elem_of_In.
    change a0 with (fst (a0, z)). now apply in_map. }
  destruct Hx as [Hx|Hx]; destruct Hy as [Hy|Hy].
  - congruence.
  - injection Hx as -> _. destruct (Hfresh _ Hy).
  - injection Hy as -> _. destruct (Hfresh _ Hx).
  - now apply IH.
Qed.

Lemma failures_of_city (obs : list (City * Result DataFrame)) (A : City) (e : Exn) :
  NoDup (map fst obs) -> In (A, Raise e) obs ->
  List.filter (fun ce => bool_decide (fst ce = A)) (failures obs) = [(A, e)].
Proof.
  unfold failures. induction obs as [|[c r] obs IH]; simpl; [tauto|].
  intros Hnd Hin. apply NoDup_cons in Hnd as [Hnotin Hnd].
  destruct Hin as [Heq|Hin].
  - injection Heq as -> ->. simpl. rewrite bool_decide_eq_true_2 by reflexivity.
    f_equal. clear IH Hnd.
    induction obs as [|[c' r'] obs IH]; simpl; [reflexivity|].
    assert (Hc' : c' <> A).
    { intros ->. apply Hnotin. simpl. now left. }
    assert (Hrest : A ∉ map fst obs).
    { intros Hin. apply Hnotin. simpl. now right. }
    destruct r' as [fr|e']; simpl; [now apply IH|].
    rewrite bool_decide_eq_false_2 by exact Hc'. now apply IH.
  - assert (Hc : c <> A).
    { intros ->. apply Hnotin, list_elem_of_In.
      change A with (fst (A, @Raise DataFrame e)). now apply in_map. }
    destruct r as [fr|e']; simpl; [now apply IH|].
    rewrite bool_decide_eq_false_2 by exact Hc. now apply IH.
Qed.

Lemma two_selected (sel : list City) (A B : City) :
  NoDup sel -> (forall c, In c sel -> c = A \/ c = B) ->
  In A sel -> In B sel -> A <> B -> sel = [A; B] \/ sel = [B; A].
Proof.
  intros Hnd Hall HA HB Hne.
  destruct sel as [|x [|y [|z rest]]]; simpl in *.
  - tauto.
  - destruct HA as [->|[]], HB as [->|[]]. congruence.
  - apply NoDup_cons in Hnd as [Hxy _]. rewrite list_elem_of_In in Hxy. simpl in Hxy.
    destruct HA as [->|[->|[]]], HB as [->|[->|[]]]; try congruence; auto.
  - exfalso. apply NoDup_cons in Hnd as [Hx Hnd]. apply NoDup_cons in Hnd as [Hy _].
    rewrite list_elem_of_In in Hx, Hy. simpl in Hx, Hy.
    destruct (Hall x) as [->| ->]; [tauto| |];
      (destruct (Hall y) as [->| ->]; [tauto| |]);
      (destruct (Hall z) as [->| ->]; [tauto| |]); tauto.
Qed.

(** C1 (as amended). When at least one selected city yields a non-empty
    frame the run renders; the merged frame holds exactly the rows of the
    frames that came back non-empty, and it is in ascending order of
    timestamp. Nothing is said about rows with equal timestamps. *)
Theorem C1_merged_rows_sorted_by_time {S : ArgSort} (net : Network) (sel : list City)
    (days_back : Z) (w : World) :
  let obs := observed net days_back sel w in
  (exists c fr, In (c, Ok fr) obs /\ empty fr = false) ->
  exists errors v w',
    build net sel days_back w = (Rendered errors v, w')
    /\ rows (df v) ≡ₚ concat (map rows (successes obs))
    /\ StronglySorted by_time (rows (df v)).
Proof.
  intros obs (c & fr & Hin & He).
  destruct (build_outcome net sel days_back w) as [w' [[Hs _]|(v & Hb & _ & Hdf & _)]];
    fold obs in Hs || fold obs in Hb, Hdf.
  - assert (Hfr : In fr (successes obs)) by (apply In_successes; eauto).
    rewrite Hs in Hfr. destruct Hfr.
  - exists (failures obs), v, w'. split; [exact Hb|]. rewrite Hdf. split.
    + apply merge_rows_perm.
    + apply StronglySorted_by_time, merge_sorted.
Qed.

(** C4. When one selected city's call raises and another's returns a
    non-empty frame, the run renders; the merged frame holds the rows of
    the frames that came back, none of them from the failing city; and the
    errors hold exactly one entry for the failing city. When these two are
    the whole selection, the merged rows are the second city's rows and
    the first city's error is the only one. *)
Theorem C4_partial_failure {S : ArgSort} (net : Network) (sel : list City)
    (days_back : Z) (w : World) (A B : City) (e : Exn) (fb : DataFrame) :
  let obs := observed net days_back sel w in
  NoDup sel -> In (A, Raise e) obs -> In (B, Ok fb) obs -> empty fb = false ->
  exists errors v w',
    build net sel days_back w = (Rendered errors v, w')
    /\ rows (df v) ≡ₚ concat (map rows (successes obs))
    /\ (forall fr, ~ In (A, Ok fr) obs)
    /\ List.filter (fun ce => bool_decide (fst ce = A)) errors = [(A, e)]
    /\ ((forall c, In c sel -> c = A \/ c = B) ->
        rows (df v) ≡ₚ rows fb /\ errors = [(A, e)]).
Proof.
  intros obs Hnd HA HB Hfb.
  assert (Hnd' : NoDup (map fst obs)) by (unfold obs; now rewrite observed_cities).
  destruct (build_outcome net sel days_back w) as [w' [[Hs _]|(v & Hb & _ & Hdf & _)]];
    fold obs in Hs || fold obs in Hb, Hdf.
  - assert (Hin : In fb (successes obs)) by (apply In_successes; eauto).
    rewrite Hs in Hin. destruct Hin.
  - exists (failures obs), v, w'. split; [exact Hb|]. rewrite Hdf.
    split; [apply merge_rows_perm|]. split; [|split].
    + intros fr Hfr. pose proof (assoc_functional obs A _ _ Hnd' HA Hfr). discriminate.
    + now apply failures_of_city.
    + intros Honly.
      assert (HAB : A <> B).
      { intros ->. pose proof (assoc_functional obs B _ _ Hnd' HA HB). discriminate. }
      assert (HinA : In A sel).
      { rewrite <- (observed_cities net days_back sel w).
        change A with (fst (A, @Raise DataFrame e)). now apply in_map. }
      assert (HinB : In B sel).
      { rewrite <- (observed_cities net days_back sel w).
        change B with (fst (B, Ok fb)). now apply in_map. }
      rewrite merge_rows_perm.
      assert (Hobs : obs = [(A, Raise e); (B, Ok fb)] \/ obs = [(B, Ok fb); (A, Raise e)]).
      { destruct (two_selected sel A B Hnd Honly HinA HinB HAB) as [Hsel|Hsel];
          [left|right]; revert HA HB; unfold obs; rewrite Hsel; simpl;
          destruct (fetch_for net days_back _ w) as [r1 w1];
          destruct (fetch_for net days_back _ w1) as [r2 w2]; simpl;
          intros [HA|[HA|[]]] [HB|[HB|[]]]; congruence. }
      destruct fb as [|p fb]; [discriminate|].
      destruct Hobs as [-> | ->]; unfold successes, failures; simpl;
        rewrite app_nil_r; auto.
Qed.

(** C5. When every call of the loop raises or returns an empty frame, the
    run stops at the no-data message with the per-city errors; no views are
    computed. *)
Theorem C5_total_failure {S : ArgSort} (net : Network) (sel : list City)
    (days_back : Z) (w : World) :
  let obs := observed net days_back sel w in
  (forall c r, In (c, r) obs ->
               match r with Ok fr => empty fr = true | Raise _ => True end) ->
  exists w', build net sel days_back w = (StoppedNoData (failures obs), w')
             /\ forall errors v, fst (build net sel days_back w) <> Rendered errors v.
Proof.
  intros obs Hall.
  destruct (build_outcome net sel days_back w) as [w' [[Hs Hb]|(v & Hb & Hd & _)]];
    fold obs in Hs, Hb || fold obs in Hb, Hd.
  - exists w'. split; [exact Hb|]. rewrite Hb. discriminate.
  - exfalso. destruct (successes obs) as [|fr frs] eqn:Hs.
    + unfold derive, merge, concat_ignore_index in Hd. simpl in Hd.
      assert (Ha : argsort Z.leb (@nil Z) = []).
      { apply Permutation_nil. symmetry. apply (argsort_perm Z.leb []). }
      unfold sort_values in Hd. simpl in Hd. rewrite Ha in Hd. discriminate.
    + assert (Hfr : In fr (successes obs)) by (rewrite Hs; now left).
      apply In_successes in Hfr as (c & Hin & He).
      specialize (Hall c (Ok fr) Hin). simpl in Hall. congruence.
Qed.

(** C2. On every non-empty merged frame the views are produced,
    [hottest_row] is a row of greatest temperature and [windiest_row] a row
    of greatest wind speed, and among the rows that reach the maximum the
    one picked has the earliest timestamp. *)
Theorem C2_extremes {S : ArgSort} (all_dfs : list DataFrame) :
  merge all_dfs <> [] ->
  exists v, derive all_dfs = Ok v
            /\ df v = merge all_dfs
            /\ is_extreme temp (df v) (hottest_row v)
            /\ is_extreme windspeed (df v) (windiest_row v).
Proof.
  intros Hne. destruct (derive_views all_dfs Hne) as (v & Hd & Hdf & _ & Hh & Hw).
  exists v. auto.
Qed.

(** C3. The snapshot table has exactly one row for every city of the
    merged frame and for no other; each of its rows is a row of the merged
    frame, and no row of the same city has a later timestamp (whatever the
    temperatures are). *)
Theorem C3_latest_snapshot {S : ArgSort} (all_dfs : list DataFrame) (v : Views) :
  derive all_dfs = Ok v ->
  NoDup (map city (rows (latest_rows v)))
  /\ (forall c, In c (map city (rows (df v))) <-> In c (map city (rows (latest_rows v))))
  /\ (forall r, In r (rows (latest_rows v)) ->
        In r (rows (df v))
        /\ forall r', In r' (rows (df v)) -> city r' = city r -> time r' <= time r).
Proof.
  intros Hd. apply derive_inv in Hd as [-> ->].
  destruct (latest_snapshot_spec (merge all_dfs)) as (H1 & H2 & H3 & _). auto.
Qed.

(** C10. The snapshot table is in ascending order of city name, strictly
    so (no name occurs twice). *)
Theorem C10_snapshot_sorted_by_city {S : ArgSort} (all_dfs : list DataFrame) (v : Views) :
  derive all_dfs = Ok v ->
  Sorted (fun a b => String.leb a b = true) (map city (rows (latest_rows v)))
  /\ Sorted (fun a b => String.ltb a b = true) (map city (rows (latest_rows v))).
Proof.
  intros Hd. apply derive_inv in Hd as [_ ->].
  destruct (latest_snapshot_spec (merge all_dfs)) as (Hnd & _ & _ & Hs).
  split; [exact Hs|]. now apply Sorted_leb_NoDup_ltb.
Qed.

(* ===================================================================== *)
(** * The properties on the concrete world *)
(* ===================================================================== *)

Example demo_run :
  fst (@build insertion_sort demo_net [Riyadh; Jeddah] 1 cold) = Rendered [] demo_views.
Proof. vm_compute. reflexivity. Qed.

Example demo_derive :
  @derive insertion_sort [riyadh_frame; jeddah_frame] = Ok demo_views.
Proof. vm_compute. reflexivity. Qed.

(** The specification's example: of (Riyadh, 41.0, 3) and (Jeddah, 38.0, 9)
    the hottest row is Riyadh's and the windiest is Jeddah's. *)
Example extremes_of_spec_example :
  exists v, derive spec_frames = Ok v
            /\ hottest_row v = mk_row "Riyadh" 0 410 30 90
            /\ windiest_row v = mk_row "Jeddah" 0 380 90 180.
Proof. eexists. split; [vm_compute; reflexivity|]. split; reflexivity. Qed.

(** Series of different lengths: the constructor raises. *)
Example mismatched_lengths_raise :
  parse_response "Riyadh"
    (ok_json (HourlyObj (series [0; 3600] [410] [30; 40] [90; 95])))
  = Raise ValueError.
Proof. vm_compute. reflexivity. Qed.

(** An entry that has reached its time to live is not served: the call
    sends a request. *)
Lemma expired_entry_refetched (net : Network) (name : string)
    (lat lon days_back : Z) (w : World) (e : CacheEntry) :
  mem_cache w !! (name, lat, lon, days_back) = Some e ->
  created_at e + ttl <= clock w ->
  requests_sent (snd (fetch_city_hourly net name lat lon days_back w))
  = requests_sent w
      ++ [{| latitude := lat; longitude := lon; past_days := days_back |}].
Proof.
  intros He Hexp. apply miss_requests. unfold cache_lookup. rewrite He.
  destruct (Z.ltb_spec (clock w) (created_at e + ttl)); [lia|reflexivity].
Qed.

(** Whatever routine sorts: it sees the timestamps only, so on two rows of
    equal timestamp it answers the same for either order of selection, and
    one of the two merged frames is not in order of city name. *)
Lemma tie_order_not_by_city {S : ArgSort} :
  let r := [(0%nat, mk_row "Riyadh" 0 410 30 90)] in
  let j := [(0%nat, mk_row "Jeddah" 0 380 90 180)] in
  ~ (Sorted by_time_then_city (rows (merge [r; j]))
     /\ Sorted by_time_then_city (rows (merge [j; r]))).
Proof.
  intros r j [H1 H2]. unfold merge, sort_values, concat_ignore_index in H1, H2.
  simpl in H1, H2.
  pose proof (argsort_perm Z.leb [0; 0]) as Hp. simpl in Hp.
  symmetry in Hp. apply Permutation_length_2_inv in Hp.
  destruct Hp as [Hp|Hp]; rewrite Hp in H1, H2; simpl in H1, H2.
  - apply Sorted_inv in H1 as [_ Hhd]. apply HdRel_inv in Hhd.
    destruct Hhd as [Hlt|[_ Hle]]; [simpl in Hlt; lia|vm_compute in Hle; discriminate].
  - apply Sorted_inv in H2 as [_ Hhd]. apply HdRel_inv in Hhd.
    destruct Hhd as [Hlt|[_ Hle]]; [simpl in Hlt; lia|vm_compute in Hle; discriminate].
Qed.

(** C1 as the specification words it fails. Riyadh and Jeddah, selected in
    this order (the order of the default selection), both report a reading
    for the instant 0. The merged frame has Riyadh's row before Jeddah's:
    the sort key is the timestamp alone, and rows of equal timestamp stay
    as the concatenation left them (here, under the insertion routine; the
    library's default makes no promise). Ordered by timestamp and then by
    city name, Jeddah's row would come first. And no sorting routine at all
    puts the rows of equal timestamp in order of city name for both orders
    of selection. *)
Lemma C1_counterexample :
  (exists errors v w',
      @build insertion_sort demo_net [Riyadh; Jeddah] 1 cold = (Rendered errors v, w')
      /\ rows (df v) = [mk_row "Riyadh" 0 410 30 90; mk_row "Jeddah" 0 380 90 180;
                         mk_row "Riyadh" 3600 395 40 95; mk_row "Jeddah" 3600 385 80 170]
      /\ ~ Sorted by_time_then_city (rows (df v)))
  /\ ~ (exists S : ArgSort,
          Sorted by_time_then_city
            (rows (@merge S [[(0%nat, mk_row "Riyadh" 0 410 30 90)];
                             [(0%nat, mk_row "Jeddah" 0 380 90 180)]]))
          /\ Sorted by_time_then_city
               (rows (@merge S [[(0%nat, mk_row "Jeddah" 0 380 90 180)];
                                [(0%nat, mk_row "Riyadh" 0 410 30 90)]]))).
Proof.
  split.
  - exists [], demo_views, (snd (build demo_net [Riyadh; Jeddah] 1 cold)).
    split; [vm_compute; reflexivity|]. split; [reflexivity|].
    simpl. intros Hs. apply Sorted_inv in Hs as [_ Hhd].
    apply HdRel_inv in Hhd. destruct Hhd as [Hlt|[_ Hle]].
    + simpl in Hlt. lia.
    + vm_compute in Hle. discriminate.
  - intros [S H]. exact (tie_order_not_by_city H).
Qed.


(** The default selection on the concrete world: Riyadh and Jeddah yield
    rows, Dammam fails, Abha has no series. *)
Lemma C1_witness :
  exists errors v w',
    build demo_net default_selection 1 cold = (Rendered errors v, w')
    /\ rows (df v)
       ≡ₚ concat (map rows (successes (observed demo_net 1 default_selection cold)))
    /\ StronglySorted by_time (rows (df v)).
Proof.
  apply (C1_merged_rows_sorted_by_time demo_net default_selection 1 cold).
  exists Riyadh, riyadh_frame. split; [|reflexivity].
  vm_compute. left. reflexivity.
Defined.

Lemma C2_witness :
  exists v, derive spec_frames = Ok v
            /\ df v = merge spec_frames
            /\ is_extreme temp (df v) (hottest_row v)
            /\ is_extreme windspeed (df v) (windiest_row v).
Proof.
  apply (C2_extremes spec_frames). vm_compute. discriminate.
Defined.

(** Two rows per city, the earlier one the hotter in Riyadh: the snapshot
    holds the later ones. *)
Lemma C3_witness :
  NoDup (map city (rows (latest_rows demo_views)))
  /\ (forall c, In c (map city (rows (df demo_views)))
                <-> In c (map city (rows (latest_rows demo_views))))
  /\ (forall r, In r (rows (latest_rows demo_views)) ->
        In r (rows (df demo_views))
        /\ forall r', In r' (rows (df demo_views)) -> city r' = city r ->
                      time r' <= time r).
Proof.
  apply (C3_latest_snapshot [riyadh_frame; jeddah_frame] demo_views).
  vm_compute. reflexivity.
Defined.

(** Dammam fails and Riyadh yields rows; they are the whole selection. *)
Lemma C4_witness :
  exists errors v w',
    build demo_net [Dammam; Riyadh] 1 cold = (Rendered errors v, w')
    /\ rows (df v)
       ≡ₚ concat (map rows (successes (observed demo_net 1 [Dammam; Riyadh] cold)))
    /\ (forall fr, ~ In (Dammam, Ok fr) (observed demo_net 1 [Dammam; Riyadh] cold))
    /\ List.filter (fun ce => bool_decide (fst ce = Dammam)) errors
       = [(Dammam, ConnectionError)]
    /\ ((forall c, In c [Dammam; Riyadh] -> c = Dammam \/ c = Riyadh) ->
        rows (df v) ≡ₚ rows riyadh_frame /\ errors = [(Dammam, ConnectionError)]).
Proof.
  apply (C4_partial_failure demo_net [Dammam; Riyadh] 1 cold Dammam Riyadh
           ConnectionError riyadh_frame).
  - apply (bool_decide_unpack _). vm_compute. reflexivity.
  - vm_compute. left. reflexivity.
  - vm_compute. right. left. reflexivity.
  - reflexivity.
Defined.

(** Dammam fails and Abha has no series. *)
Lemma C5_witness :
  exists w',
    build demo_net [Dammam; Abha] 1 cold
    = (StoppedNoData (failures (observed demo_net 1 [Dammam; Abha] cold)), w')
    /\ forall errors v,
        fst (build demo_net [Dammam; Abha] 1 cold) <> Rendered errors v.
Proof.
  apply (C5_total_failure demo_net [Dammam; Abha] 1 cold).
  intros c r Hin. vm_compute in Hin.
  destruct Hin as [Heq|[Heq|[]]]; injection Heq as <- <-; exact I || reflexivity.
Defined.

(** A first call for Riyadh from the cold world, then a second one. *)
Lemma C6_witness :
  exists e,
    mem_cache after_riyadh !! key_for 1 Riyadh = Some e
    /\ value e = riyadh_frame
    /\ (forall d : N,
          clock after_riyadh + Z.of_N d < created_at e + ttl_seconds * ns_per_second ->
          fetch_city_hourly demo_net "Riyadh" 247136 466753 1 (elapse d after_riyadh)
          = (Ok riyadh_frame, elapse d after_riyadh))
    /\ (cache_lookup (key_for 1 Riyadh) cold = None ->
        created_at e = clock after_riyadh
        /\ forall d : N,
            Z.of_N d < ttl_seconds * ns_per_second ->
            requests_sent
              (snd (fetch_city_hourly demo_net "Riyadh" 247136 466753 1
                      (elapse d after_riyadh)))
            = requests_sent cold ++ [riyadh_request]).
Proof.
  apply (C6_second_call_within_ttl demo_net "Riyadh" 247136 466753 1 cold
           after_riyadh riyadh_frame).
  vm_compute. reflexivity.
Defined.

(** The refresh button on a world whose cache holds a live entry. *)
Lemma C7_witness :
  requests_sent (snd (app demo_net default_selection 1 true after_riyadh))
  = requests_sent after_riyadh ++ map (request_for 1) default_selection.
Proof.
  apply (proj2 (C7_clear_forces_refetch demo_net 1 after_riyadh) insertion_sort).
  apply (bool_decide_unpack _). vm_compute. reflexivity.
Defined.

(** Abha's payload has an empty [hourly] object. *)
Lemma C8_witness :
  fst (fetch_city_hourly_body demo_net "Abha" 182465 425117 1 cold) = Ok []
  /\ forall c rest all_dfs errors w0 w1 fr,
      fetch_for demo_net 1 c w0 = (Ok fr, w1) -> empty fr = true ->
      fetch_loop demo_net 1 (c :: rest) all_dfs errors w0
      = fetch_loop demo_net 1 rest all_dfs errors w1.
Proof.
  apply (C8_no_series_is_skipped demo_net "Abha" 182465 425117 1 200 (HourlyObj ∅) cold).
  - reflexivity.
  - lia.
  - right. right. reflexivity.
Defined.

Lemma C9_witness :
  let m := series [0; 3600] [410; 395] [30; 40] [90; 95] in
  let out := Responded {| status_code := 200; body := Some (HourlyObj m) |} in
  (~ (length [410; 395] = length [0; 3600] /\ length [30; 40] = length [0; 3600]
      /\ length [90; 95] = length [0; 3600]) ->
   parse_response "Riyadh" out = Raise ValueError
   /\ taxonomy ValueError = MalformedResponseError)
  /\ (length [410; 395] = length [0; 3600] /\ length [30; 40] = length [0; 3600]
      /\ length [90; 95] = length [0; 3600] ->
      exists fr, parse_response "Riyadh" out = Ok fr
                 /\ length fr = length [0; 3600]
                 /\ forall i t a b c,
                     [0; 3600] !! i = Some t -> [410; 395] !! i = Some a ->
                     [30; 40] !! i = Some b -> [90; 95] !! i = Some c ->
                     fr !! i = Some (i, {| city := "Riyadh"; time := t; temp := a;
                                           windspeed := b; winddirection := c |})).
Proof.
  apply (C9_parallel_arrays "Riyadh" 200 (series [0; 3600] [410; 395] [30; 40] [90; 95])
           [0; 3600] [410; 395] [30; 40] [90; 95]).
  - lia.
  - vm_compute. reflexivity.
  - vm_compute. reflexivity.
  - vm_compute. reflexivity.
  - vm_compute. reflexivity.
Defined.

Lemma C10_witness :
  Sorted (fun a b => String.leb a b = true) (map city (rows (latest_rows demo_views)))
  /\ Sorted (fun a b => String.ltb a b = true) (map city (rows (latest_rows demo_views))).
Proof.
  apply (C10_snapshot_sorted_by_city [riyadh_frame; jeddah_frame] demo_views).
  vm_compute. reflexivity.
Defined.

(* ===================================================================== *)
(** * Fetcher: when the parse succeeds, and what it raises *)
(* ===================================================================== *)

Lemma status_ok_false (status : Z) :
  ~ (400 <= status < 600) -> (400 <=? status) && (status <? 600) = false.
Proof. intros H. apply andb_false_iff. rewrite Z.leb_gt, Z.ltb_ge. lia. Qed.

Lemma status_ok_true (status : Z) :
  400 <= status < 600 -> (400 <=? status) && (status <? 600) = true.
Proof. intros H. apply andb_true_iff. rewrite Z.leb_le, Z.ltb_lt. lia. Qed.

Lemma make_frame_Ok (name : string) (times temps winds winddirs : list Z)
    (fr : DataFrame) :
  make_frame name times temps winds winddirs = Ok fr <->
  length temps = length times /\ length winds = length times
  /\ length winddirs = length times
  /\ fr = range_index (zip4 name times temps winds winddirs).
Proof.
  unfold make_frame.
  destruct (Nat.eqb_spec (length temps) (length times)); simpl;
    [|split; [discriminate|tauto]].
  destruct (Nat.eqb_spec (length winds) (length times)); simpl;
    [|split; [discriminate|tauto]].
  destruct (Nat.eqb_spec (length winddirs) (length times)); simpl;
    [|split; [discriminate|tauto]].
  split; [intros [= <-]; auto|intros (_ & _ & _ & ->); reflexivity].
Qed.

Lemma parse_response_Ok_cases (name : string) (out : HttpOutcome) (fr : DataFrame) :
  parse_response name out = Ok fr <->
  exists status h,
    out = Responded {| status_code := status; body := Some h |}
    /\ ~ (400 <= status < 600)
    /\ (((h = HourlyAbsent \/ h = HourlyNull \/ h = HourlyObj ∅) /\ fr = [])
        \/ exists m times temps winds winddirs,
            h = HourlyObj m /\ m <> ∅
            /\ m !! "time"%string = Some times
            /\ m !! "temperature_2m"%string = Some temps
            /\ m !! "windspeed_10m"%string = Some winds
            /\ m !! "winddirection_10m"%string = Some winddirs
            /\ length temps = length times /\ length winds = length times
            /\ length winddirs = length times
            /\ fr = range_index (zip4 name times temps winds winddirs)).
Proof.
  split.
  - destruct out as [| |[status [h|]]]; simpl; try discriminate.
    + destruct (Z.leb_spec 400 status); destruct (Z.ltb_spec status 600); simpl;
        try discriminate; intros Hp; exists status, h;
        (split; [reflexivity|]); (split; [lia|]);
        (destruct h as [| |m]; simpl in Hp;
         [left; split; [auto|congruence]
         |left; split; [auto|congruence]
         |destruct (decide (m = ∅)) as [->|Hne];
          [left; split; [auto|congruence]|right]]);
        unfold getitem in Hp;
        (destruct (m !! "time"%string) as [times|] eqn:H1; [|discriminate]);
        (destruct (m !! "temperature_2m"%string) as [temps|] eqn:H2; [|discriminate]);
        (destruct (m !! "windspeed_10m"%string) as [winds|] eqn:H3; [|discriminate]);
        (destruct (m !! "winddirection_10m"%string) as [winddirs|] eqn:H4; [|discriminate]);
        apply make_frame_Ok in Hp as (L1 & L2 & L3 & ->);
        exists m, times, temps, winds, winddirs; auto 12.
    + destruct ((400 <=? status) && (status <? 600)); discriminate.
  - intros (status & h & -> & Hst & Hcase). simpl.
    rewrite (status_ok_false status Hst).
    destruct Hcase as [[[->|[->| ->]] ->]|Hcase]; try reflexivity.
    destruct Hcase as (m & times & temps & winds & winddirs & -> & Hne & H1 & H2
                       & H3 & H4 & L1 & L2 & L3 & ->).
    simpl. destruct (decide (m = ∅)); [contradiction|].
    unfold getitem. rewrite H1, H2, H3, H4. apply make_frame_Ok. auto.
Qed.

(** X2. With a payload that has some hourly member but not all four, the fetcher
    raises [KeyError] for the first one missing in the order time,
    temperature, wind speed, wind direction, whatever the arrays hold. *)
Theorem first_missing_member_raises (name : string) (status : Z)
    (m : gmap string (list Z)) (present : list string) (k : string) (later : list string) :
  ~ (400 <= status < 600) -> m <> ∅ ->
  hourly_keys = present ++ k :: later ->
  Forall (fun k' => is_Some (m !! k')) present ->
  m !! k = None ->
  parse_response name
    (Responded {| status_code := status; body := Some (HourlyObj m) |})
  = Raise (KeyError k).
Proof.
  intros Hst Hne Hkeys Hpresent Hk. simpl. rewrite (status_ok_false status Hst).
  destruct (decide (m = ∅)); [contradiction|]. unfold getitem, hourly_keys in *.
  destruct present as [|k1 [|k2 [|k3 [|k4 rest]]]]; simpl in Hkeys.
  - injection Hkeys as <- _. now rewrite Hk.
  - injection Hkeys as <- <- _. apply Forall_cons in Hpresent as [[x1 H1] _].
    now rewrite H1, Hk.
  - injection Hkeys as <- <- <- _.
    apply Forall_cons in Hpresent as [[x1 H1] Hpresent].
    apply Forall_cons in Hpresent as [[x2 H2] _].
    now rewrite H1, H2, Hk.
  - injection Hkeys as <- <- <- <- _.
    apply Forall_cons in Hpresent as [[x1 H1] Hpresent].
    apply Forall_cons in Hpresent as [[x2 H2] Hpresent].
    apply Forall_cons in Hpresent as [[x3 H3] _].
    now rewrite H1, H2, H3, Hk.
  - exfalso. injection Hkeys as _ _ _ _ Hrest. destruct rest; discriminate.
Qed.

Lemma zip4_city (name : string) (times temps winds winddirs : list Z) :
  Forall (fun r => city r = name) (zip4 name times temps winds winddirs).
Proof.
  unfold zip4. apply Forall_forall. intros r Hr.
  apply list_elem_of_In, in_map_iff in Hr as ([[[t a] b] c] & <- & _). reflexivity.
Qed.

(** X1. The fetcher returns a frame exactly when the request is answered with
    a status outside 400-599 and a JSON body, and either the payload has no
    hourly series (the frame is then empty) or it has the four members with
    arrays of one length (the frame then has one row per position). Every
    other outcome is an exception. *)
Theorem parse_response_Ok_iff (name : string) (out : HttpOutcome) (fr : DataFrame) :
  parse_response name out = Ok fr <->
  exists status h,
    out = Responded {| status_code := status; body := Some h |}
    /\ ~ (400 <= status < 600)
    /\ (((h = HourlyAbsent \/ h = HourlyNull \/ h = HourlyObj ∅) /\ fr = [])
        \/ exists m times temps winds winddirs,
            h = HourlyObj m /\ m <> ∅
            /\ m !! "time"%string = Some times
            /\ m !! "temperature_2m"%string = Some temps
            /\ m !! "windspeed_10m"%string = Some winds
            /\ m !! "winddirection_10m"%string = Some winddirs
            /\ length temps = length times /\ length winds = length times
            /\ length winddirs = length times
            /\ fr = range_index (zip4 name times temps winds winddirs)).
Proof. apply parse_response_Ok_cases. Qed.

Lemma parse_response_shape (name : string) (out : HttpOutcome) (fr : DataFrame) :
  parse_response name out = Ok fr ->
  index fr = seq 0 (length fr) /\ Forall (fun r => city r = name) (rows fr).
Proof.
  intros Hp. apply parse_response_Ok_cases in Hp as (status & h & _ & _ & Hcase).
  destruct Hcase as [[_ ->]|(m & times & temps & winds & winddirs & _ & _ & _ & _
                              & _ & _ & _ & _ & _ & ->)].
  - split; [reflexivity|constructor].
  - rewrite index_range_index, length_range_index, rows_range_index.
    split; [reflexivity|apply zip4_city].
Qed.

(** X3. A frame returned by the fetcher is labelled 0, 1, ... and every row of it
    carries the city name the fetcher was called with. *)
Theorem fetched_frame_shape (net : Network) (name : string) (lat lon days_back : Z)
    (w : World) (fr : DataFrame) :
  fst (fetch_city_hourly_body net name lat lon days_back w) = Ok fr ->
  index fr = seq 0 (length fr) /\ Forall (fun r => city r = name) (rows fr).
Proof.
  unfold fetch_city_hourly_body. destruct (net (clock w) _) as [dt out]. simpl.
  apply parse_response_shape.
Qed.

(* ===================================================================== *)
(** * Cache: errors, expiry, and the requests of a run *)
(* ===================================================================== *)

Lemma body_clock (net : Network) (name : string) (lat lon days_back : Z) (w : World) :
  clock w <= clock (snd (fetch_city_hourly_body net name lat lon days_back w)).
Proof.
  unfold fetch_city_hourly_body. destruct (net (clock w) _) as [dt out]. simpl. lia.
Qed.

Lemma fetch_hit (net : Network) (name : string) (lat lon days_back : Z) (w : World)
    (v : DataFrame) :
  cache_lookup (name, lat, lon, days_back) w = Some v ->
  fetch_city_hourly net name lat lon days_back w = (Ok v, w).
Proof. intros Hhit. unfold fetch_city_hourly. now rewrite Hhit. Qed.

Lemma fetch_clock (net : Network) (name : string) (lat lon days_back : Z) (w : World) :
  clock w <= clock (snd (fetch_city_hourly net name lat lon days_back w)).
Proof.
  unfold fetch_city_hourly. destruct (cache_lookup _ w); [simpl; lia|].
  pose proof (body_clock net name lat lon days_back w) as Hc.
  now destruct (fetch_city_hourly_body net name lat lon days_back w) as [[v|e] w1].
Qed.

Lemma fetch_requests_cases (net : Network) (name : string) (lat lon days_back : Z)
    (w : World) :
  let w1 := snd (fetch_city_hourly net name lat lon days_back w) in
  requests_sent w1 = requests_sent w
  \/ requests_sent w1
     = requests_sent w ++ [{| latitude := lat; longitude := lon; past_days := days_back |}].
Proof.
  intros w1. unfold w1.
  destruct (cache_lookup (name, lat, lon, days_back) w) as [v|] eqn:Hlk.
  - left. now rewrite (fetch_hit _ _ _ _ _ _ v Hlk).
  - right. now apply miss_requests.
Qed.

Lemma cache_lookup_stays_None (k : Key) (w w1 : World) :
  cache_lookup k w = None -> mem_cache w1 = mem_cache w -> clock w <= clock w1 ->
  cache_lookup k w1 = None.
Proof.
  unfold cache_lookup. intros Hlk -> Hc.
  destruct (mem_cache w !! k) as [e|]; [|reflexivity].
  destruct (Z.ltb_spec (clock w) (created_at e + ttl)); [discriminate|].
  destruct (Z.ltb_spec (clock w1) (created_at e + ttl)); [lia|reflexivity].
Qed.

(** X4. A call that raises leaves the store as it was (the error is not kept),
    has sent one request, and the next call with the same arguments,
    however much later, sends a request again. *)
Theorem errors_are_not_cached (net : Network) (name : string) (lat lon days_back : Z)
    (w w1 : World) (e : Exn) :
  fetch_city_hourly net name lat lon days_back w = (Raise e, w1) ->
  let rq := {| latitude := lat; longitude := lon; past_days := days_back |} in
  mem_cache w1 = mem_cache w
  /\ requests_sent w1 = requests_sent w ++ [rq]
  /\ forall d : N,
      requests_sent (snd (fetch_city_hourly net name lat lon days_back (elapse d w1)))
      = requests_sent w1 ++ [rq].
Proof.
  intros Hcall rq. unfold fetch_city_hourly in Hcall.
  destruct (cache_lookup (name, lat, lon, days_back) w) as [v|] eqn:Hlk; [discriminate|].
  pose proof (body_cache net name lat lon days_back w) as Hm.
  pose proof (body_requests net name lat lon days_back w) as Hr.
  pose proof (body_clock net name lat lon days_back w) as Hc.
  destruct (fetch_city_hourly_body net name lat lon days_back w) as [[v|e0] wb];
    [discriminate|].
  injection Hcall as -> ->. simpl in *. split; [exact Hm|]. split; [exact Hr|].
  intros d. rewrite miss_requests; [reflexivity|].
  apply (cache_lookup_stays_None _ w); [exact Hlk|exact Hm|simpl; lia].
Qed.

(** X5. Once the clock reads the creation time plus 300 seconds or more, the
    entry is not served: the call sends a request and returns what the
    fetcher makes of the answer. A frame replaces the entry, with the clock
    reading at the time of storing; an exception leaves the old entry. *)
Theorem expired_entry_is_refetched (net : Network) (name : string)
    (lat lon days_back : Z) (w : World) (e : CacheEntry) :
  mem_cache w !! (name, lat, lon, days_back) = Some e ->
  created_at e + ttl_seconds * ns_per_second <= clock w ->
  let k := (name, lat, lon, days_back) in
  let rq := {| latitude := lat; longitude := lon; past_days := days_back |} in
  let r := fst (fetch_city_hourly net name lat lon days_back w) in
  let w1 := snd (fetch_city_hourly net name lat lon days_back w) in
  requests_sent w1 = requests_sent w ++ [rq]
  /\ r = fst (fetch_city_hourly_body net name lat lon days_back w)
  /\ match r with
     | Ok v => mem_cache w1 !! k = Some {| value := v; created_at := clock w1 |}
     | Raise _ => mem_cache w1 !! k = Some e
     end.
Proof.
  intros He Hexp k rq r w1. unfold r, w1.
  assert (Hlk : cache_lookup k w = None).
  { unfold cache_lookup, k. rewrite He. unfold ttl.
    destruct (Z.ltb_spec (clock w) (created_at e + ttl_seconds * ns_per_second));
      [lia|reflexivity]. }
  split; [now apply miss_requests|].
  unfold fetch_city_hourly. fold k. rewrite Hlk.
  pose proof (body_cache net name lat lon days_back w) as Hm.
  destruct (fetch_city_hourly_body net name lat lon days_back w) as [[v|e0] wb];
    simpl in *; (split; [reflexivity|]).
  - apply lookup_insert_eq.
  - rewrite Hm. exact He.
Qed.

(** X6. An entry stored for one time window is not served for another: the
    window is part of the key. *)
Theorem other_window_is_fetched (net : Network) (name : string)
    (lat lon days1 days2 : Z) (w : World) :
  days1 <> days2 ->
  mem_cache w !! (name, lat, lon, days2) = None ->
  let w1 := snd (fetch_city_hourly net name lat lon days1 w) in
  requests_sent (snd (fetch_city_hourly net name lat lon days2 w1))
  = requests_sent w1 ++ [{| latitude := lat; longitude := lon; past_days := days2 |}].
Proof.
  intros Hne Hnone w1. apply miss_requests, cache_lookup_None_absent.
  unfold w1. rewrite fetch_other_key by congruence. exact Hnone.
Qed.

Lemma fetch_loop_requests (net : Network) (days_back : Z) (sel : list City)
    (all_dfs : list DataFrame) (errors : Errors) (w : World) :
  let w1 := snd (fetch_loop net days_back sel all_dfs errors w) in
  clock w <= clock w1
  /\ exists new, requests_sent w1 = requests_sent w ++ new
                 /\ new `sublist_of` map (request_for days_back) sel.
Proof.
  revert all_dfs errors w. induction sel as [|c sel IH]; intros all_dfs errors w; simpl.
  - split; [lia|]. exists []. split; [now rewrite app_nil_r|constructor].
  - pose proof (fetch_clock net (city_name c) (lat (CITIES c)) (lon (CITIES c))
                  days_back w) as Hc.
    pose proof (fetch_requests_cases net (city_name c) (lat (CITIES c))
                  (lon (CITIES c)) days_back w) as Hr.
    unfold fetch_for. simpl in Hr.
    destruct (fetch_city_hourly net (city_name c) _ _ days_back w) as [r w1].
    simpl in Hc, Hr.
    assert (Hgoal : forall dfs errs,
               clock w <= clock (snd (fetch_loop net days_back sel dfs errs w1))
               /\ exists new,
                   requests_sent (snd (fetch_loop net days_back sel dfs errs w1))
                   = requests_sent w ++ new
                   /\ new `sublist_of` request_for days_back c
                                         :: map (request_for days_back) sel).
    { intros dfs errs. destruct (IH dfs errs w1) as (Hc1 & new & Hnew & Hsub).
      split; [lia|]. destruct Hr as [Hr|Hr]; rewrite Hnew, Hr.
      - exists new. split; [reflexivity|]. now apply sublist_cons.
      - exists (request_for days_back c :: new). split.
        + now rewrite <- app_assoc.
        + now apply sublist_skip. }
    destruct r as [fr|e]; [destruct (empty fr)|]; apply Hgoal.
Qed.

(** X7. A run sends at most one request per selected city, in the order of the
    selection, and for selected cities only; earlier entries of the log are
    kept, and the clock does not go back. *)
Theorem run_requests_bounded (S : ArgSort) (net : Network) (sel : list City)
    (days_back : Z) (refresh : bool) (w : World) :
  let w1 := snd (app net sel days_back refresh w) in
  clock w <= clock w1
  /\ exists new, requests_sent w1 = requests_sent w ++ new
                 /\ new `sublist_of` map (request_for days_back) sel
                 /\ (length new <= length sel)%nat.
Proof.
  intros w1. unfold w1, app. destruct sel as [|c sel].
  - simpl. split; [lia|]. exists []. rewrite app_nil_r.
    split; [reflexivity|]. split; [apply sublist_nil_l|simpl; lia].
  - rewrite build_world.
    destruct (fetch_loop_requests net days_back (c :: sel) [] []
                (if refresh then clear w else w)) as (Hc & new & Hnew & Hsub).
    assert (Hw : clock (if refresh then clear w else w) = clock w
                 /\ requests_sent (if refresh then clear w else w) = requests_sent w)
      by (destruct refresh; auto).
    destruct Hw as [Hw1 Hw2]. rewrite Hw1 in Hc. rewrite Hw2 in Hnew.
    split; [exact Hc|]. exists new. split; [exact Hnew|]. split; [exact Hsub|].
    apply sublist_length in Hsub. now rewrite length_map in Hsub.
Qed.

(* ===================================================================== *)
(** * Runs served from the store *)
(* ===================================================================== *)

Lemma fetch_loop_all_hits (net : Network) (days_back : Z) (sel : list City)
    (all_dfs : list DataFrame) (errors : Errors) (w : World) :
  (forall c, In c sel -> is_Some (cache_lookup (key_for days_back c) w)) ->
  fetch_loop net days_back sel all_dfs errors w
  = (all_dfs ++ flat_map (fun c => match cache_lookup (key_for days_back c) w with
                                   | Some fr => if empty fr then [] else [fr]
                                   | None => []
                                   end) sel,
     errors, w)
  /\ observed net days_back sel w
     = map (fun c => (c, match cache_lookup (key_for days_back c) w with
                         | Some fr => Ok fr
                         | None => Raise ValueError
                         end)) sel.
Proof.
  revert all_dfs. induction sel as [|c sel IH]; intros all_dfs Hlive; simpl.
  - now rewrite app_nil_r.
  - destruct (Hlive c (or_introl eq_refl)) as [fr Hfr].
    unfold fetch_for. fold (key_for days_back c) in Hfr.
    rewrite (fetch_hit net _ _ _ _ w fr Hfr). rewrite Hfr.
    assert (Hrest : forall c', In c' sel ->
                               is_Some (cache_lookup (key_for days_back c') w))
      by (intros c' Hc'; apply Hlive; now right).
    destruct (empty fr) eqn:He.
    + destruct (IH all_dfs Hrest) as [-> ->]. auto.
    + destruct (IH (all_dfs ++ [fr]) Hrest) as [-> ->].
      rewrite <- app_assoc. auto.
Qed.

(** X8. When every selected city has a live entry, the run sends no request
    and leaves the world as it is, shows no error, and every city's frame
    is the stored one. *)
Theorem live_entries_serve_the_run (S : ArgSort) (net : Network) (sel : list City)
    (days_back : Z) (w : World) :
  (forall c, In c sel -> is_Some (cache_lookup (key_for days_back c) w)) ->
  snd (build net sel days_back w) = w
  /\ page_errors (fst (build net sel days_back w)) = []
  /\ forall c r, In (c, r) (observed net days_back sel w) ->
                 exists fr, cache_lookup (key_for days_back c) w = Some fr /\ r = Ok fr.
Proof.
  intros Hlive.
  destruct (fetch_loop_all_hits net days_back sel [] [] w Hlive) as [Hloop Hobs].
  split; [|split].
  - rewrite build_world, Hloop. reflexivity.
  - unfold build. rewrite Hloop. simpl.
    destruct (flat_map _ sel); [reflexivity|]. now destruct (derive _).
  - intros c r Hin. rewrite Hobs in Hin. apply in_map_iff in Hin as (c' & Heq & Hc').
    injection Heq as -> <-. destruct (Hlive c Hc') as [fr Hfr].
    exists fr. now rewrite Hfr.
Qed.

Lemma fetch_loop_world (net : Network) (days_back : Z) (sel : list City)
    (all_dfs : list DataFrame) (errors : Errors) (w : World) :
  snd (fetch_loop net days_back sel all_dfs errors w)
  = snd (fetch_loop net days_back sel [] [] w).
Proof.
  revert all_dfs errors w. induction sel as [|c sel IH]; intros all_dfs errors w;
    simpl; [reflexivity|].
  destruct (fetch_for net days_back c w) as [[fr|e] w1].
  - destruct (empty fr); rewrite IH; symmetry; apply IH.
  - rewrite IH. symmetry. apply IH.
Qed.

Lemma key_for_inj (days_back : Z) (c1 c2 : City) :
  key_for days_back c1 = key_for days_back c2 -> c1 = c2.
Proof. unfold key_for. intros [= Hn _ _]. now apply city_name_inj. Qed.

Lemma fetch_loop_other_key (net : Network) (days_back : Z) (sel : list City)
    (all_dfs : list DataFrame) (errors : Errors) (w : World) (c : City) :
  ~ In c sel ->
  mem_cache (snd (fetch_loop net days_back sel all_dfs errors w)) !! key_for days_back c
  = mem_cache w !! key_for days_back c.
Proof.
  revert all_dfs errors w. induction sel as [|c' sel IH]; intros all_dfs errors w Hc;
    simpl; [reflexivity|].
  assert (Hne : key_for days_back c <> key_for days_back c').
  { intros Heq. apply key_for_inj in Heq. subst. apply Hc. now left. }
  assert (Hrest : ~ In c sel) by (intros Hin; apply Hc; now right).
  pose proof (fetch_other_key net (city_name c') (lat (CITIES c')) (lon (CITIES c'))
                days_back w (key_for days_back c) Hne) as Hk.
  unfold fetch_for.
  destruct (fetch_city_hourly net (city_name c') _ _ days_back w) as [[fr|e] w1];
    simpl in Hk.
  - destruct (empty fr); rewrite IH by exact Hrest; exact Hk.
  - rewrite IH by exact Hrest. exact Hk.
Qed.

(** The second of two runs over the same selection, the first from a store
    with no entry for it and without an exception. *)
Lemma rerun_loop (net : Network) (days_back : Z) (sel : list City) (w w2 : World) :
  NoDup sel ->
  (forall c, In c sel -> mem_cache w !! key_for days_back c = None) ->
  (forall c r, In (c, r) (observed net days_back sel w) -> exists fr, r = Ok fr) ->
  (forall c, In c sel ->
             mem_cache w2 !! key_for days_back c
             = mem_cache (snd (fetch_loop net days_back sel [] [] w))
                 !! key_for days_back c) ->
  clock w2 < clock w + ttl ->
  forall all_dfs errors,
    fetch_loop net days_back sel all_dfs errors w2
    = (fst (fetch_loop net days_back sel all_dfs errors w), w2).
Proof.
  revert w. induction sel as [|c sel IH]; intros w Hnd Hcold Hok Hsame Hclock
                                                  all_dfs errors; simpl.
  - reflexivity.
  - apply NoDup_cons in Hnd as [Hnotin Hnd]. rewrite list_elem_of_In in Hnotin.
    assert (Hmiss : cache_lookup (key_for days_back c) w = None)
      by (apply cache_lookup_None_absent, Hcold; now left).
    simpl in Hok, Hsame. unfold fetch_for in *.
    pose proof (fun c' Hne => fetch_other_key net (city_name c) (lat (CITIES c))
                                (lon (CITIES c)) days_back w
                                (key_for days_back c') Hne) as Hother.
    unfold fetch_city_hourly in *. fold (key_for days_back c) in *.
    rewrite Hmiss in *.
    pose proof (body_clock net (city_name c) (lat (CITIES c)) (lon (CITIES c))
                  days_back w) as Hbc.
    destruct (fetch_city_hourly_body net (city_name c) _ _ days_back w)
      as [[v|e] wb]; simpl in *.
    2:{ destruct (Hok c (Raise e) (or_introl eq_refl)) as [fr Hfr]. discriminate. }
    set (w' := cache_store (key_for days_back c) v wb) in *.
    assert (Hentry : mem_cache w2 !! key_for days_back c
                     = Some {| value := v; created_at := clock wb |}).
    { rewrite (Hsame c (or_introl eq_refl)).
      assert (Hw : snd (if empty v
                        then fetch_loop net days_back sel [] [] w'
                        else fetch_loop net days_back sel [v] [] w')
                   = snd (fetch_loop net days_back sel [] [] w'))
        by (destruct (empty v); [reflexivity|apply fetch_loop_world]).
      rewrite Hw. rewrite fetch_loop_other_key by exact Hnotin.
      unfold w'. simpl. apply lookup_insert_eq. }
    assert (Hhit : cache_lookup (key_for days_back c) w2 = Some v).
    { unfold cache_lookup. rewrite Hentry. simpl.
      destruct (Z.ltb_spec (clock w2) (clock wb + ttl)); [reflexivity|lia]. }
    rewrite Hhit.
    assert (Hrec : forall dfs errs,
               fetch_loop net days_back sel dfs errs w2
               = (fst (fetch_loop net days_back sel dfs errs w'), w2)).
    { apply IH; try assumption.
      - intros c' Hc'. unfold w'. simpl. rewrite Hother.
        + apply Hcold. now right.
        + intros Heq. apply key_for_inj in Heq. subst. contradiction.
      - intros c' r Hin. apply (Hok c' r). now right.
      - intros c' Hc'. rewrite (Hsame c' (or_intror Hc')).
        destruct (empty v); [reflexivity|].
        now rewrite (fetch_loop_world net days_back sel [v] [] w').
      - unfold w'. simpl. lia. }
    destruct (empty v); apply Hrec.
Qed.

Lemma build_page_errors {S : ArgSort} (net : Network) (sel : list City)
    (days_back : Z) (w : World) :
  page_errors (fst (build net sel days_back w))
  = failures (observed net days_back sel w).
Proof.
  destruct (build_outcome net sel days_back w) as [w' [[_ Hb]|(v & Hb & _)]];
    now rewrite Hb.
Qed.

Lemma build_page_of {S : ArgSort} (net : Network) (sel : list City)
    (days_back : Z) (w : World) :
  build net sel days_back w
  = (page_of (fst (fetch_loop net days_back sel [] [] w)),
     snd (fetch_loop net days_back sel [] [] w)).
Proof.
  unfold build, page_of.
  destruct (fetch_loop net days_back sel [] [] w) as [[all_dfs errors] w1]. simpl.
  destruct all_dfs; [reflexivity|]. now destruct (derive _).
Qed.

(** X9. A run with the refresh button pressed that shows no per-city error,
    followed by a run over the same selection and window without the
    button, begun less than 300 seconds after the first began: the second
    run sends no request, leaves the world as it is and shows the same
    page. *)
Theorem rerun_within_ttl (S : ArgSort) (net : Network) (sel : list City)
    (days_back : Z) (w : World) (d : N) :
  NoDup sel ->
  page_errors (fst (app net sel days_back true w)) = [] ->
  let w1 := snd (app net sel days_back true w) in
  clock w1 + Z.of_N d < clock w + ttl_seconds * ns_per_second ->
  app net sel days_back false (elapse d w1)
  = (fst (app net sel days_back true w), elapse d w1).
Proof.
  intros Hnd Herr w1 Hclock. unfold w1 in *. unfold app in *.
  destruct sel as [|c sel]; [reflexivity|].
  rewrite build_page_errors in Herr. rewrite build_world in *.
  set (w0 := clear w) in *. set (cs := c :: sel) in *.
  rewrite (build_page_of net cs days_back w0).
  rewrite (build_page_of net cs days_back (elapse d _)). cbn [fst snd].
  rewrite (rerun_loop net days_back cs w0); [reflexivity|..].
  - exact Hnd.
  - intros c' _. apply lookup_empty.
  - intros c' [fr|e] Hin; [eauto|].
    apply In_failures in Hin. rewrite Herr in Hin. destruct Hin.
  - intros c' _. reflexivity.
  - simpl. unfold ttl. exact Hclock.
Qed.

(* ===================================================================== *)
(** * How a run ends, and the metrics *)
(* ===================================================================== *)



Lemma derive_fields {S : ArgSort} (all_dfs : list DataFrame) (v : Views) :
  derive all_dfs = Ok v ->
  merge all_dfs <> []
  /\ df v = merge all_dfs
  /\ num_cities v = nunique (map city (rows (merge all_dfs)))
  /\ num_records v = length (merge all_dfs)
  /\ latest_rows v = latest_snapshot (merge all_dfs)
  /\ is_extreme temp (merge all_dfs) (hottest_row v)
  /\ is_extreme windspeed (merge all_dfs) (windiest_row v).
Proof.
  intros Hd.
  assert (Hne : merge all_dfs <> []).
  { intros Hnil. unfold derive in Hd. rewrite Hnil in Hd. discriminate. }
  destruct (derive_views all_dfs Hne) as (v' & Hd' & Hdf & Hl & Hh & Hw).
  rewrite Hd in Hd'. injection Hd' as <-. rewrite Hdf in Hh, Hw.
  split; [exact Hne|]. split; [exact Hdf|]. unfold derive, bind_result in Hd.
  destruct (idxmax temp (merge all_dfs)); [|discriminate].
  destruct (loc (merge all_dfs) _); [|discriminate].
  destruct (idxmax windspeed (merge all_dfs)); [|discriminate].
  destruct (loc (merge all_dfs) _); [|discriminate].
  injection Hd as <-. simpl in *. auto 10.
Qed.

Lemma nunique_NoDup (l l2 : list string) :
  NoDup l2 -> (forall x, In x l <-> In x l2) -> nunique l = length l2.
Proof.
  intros Hnd Hsame. unfold nunique. apply Permutation_length.
  apply NoDup_Permutation; [apply NoDup_remove_dups|exact Hnd|].
  intros x. rewrite elem_of_remove_dups, !list_elem_of_In. apply Hsame.
Qed.

Lemma nunique_le (l : list string) : (nunique l <= length l)%nat.
Proof.
  unfold nunique. induction l as [|x l IH]; simpl; [lia|].
  destruct (decide_rel elem_of x l); simpl; lia.
Qed.

(** X11. The metrics agree with the tables: the record count is the number of
    rows of the merged frame, which is the number of rows the kept frames
    hold together; the city count is the number of rows of the snapshot
    table; and there is at least one city and no more cities than rows. *)
Theorem metrics_agree_with_tables (S : ArgSort) (all_dfs : list DataFrame) (v : Views) :
  derive all_dfs = Ok v ->
  num_records v = length (df v)
  /\ num_records v = length (concat (map rows all_dfs))
  /\ num_cities v = length (latest_rows v)
  /\ (1 <= num_cities v <= num_records v)%nat.
Proof.
  intros Hd. apply derive_fields in Hd as (Hne & Hdf & Hnc & Hnr & Hl & _ & _).
  rewrite Hdf, Hnr, Hnc, Hl.
  destruct (latest_snapshot_spec (merge all_dfs)) as (Hnd & Hsame & _ & _).
  simpl in Hnd, Hsame.
  assert (Hlen : nunique (map city (rows (merge all_dfs)))
                 = length (latest_snapshot (merge all_dfs))).
  { rewrite (nunique_NoDup _ _ Hnd Hsame). unfold rows. now rewrite !length_map. }
  split; [reflexivity|]. split; [apply merge_length|]. split; [exact Hlen|].
  split.
  - rewrite Hlen.
    destruct (latest_snapshot (merge all_dfs)) as [|q l] eqn:Hs; [|simpl; lia].
    exfalso. destruct (merge all_dfs) as [|p fr]; [congruence|].
    destruct (proj1 (Hsame (city (snd p)))) as []. simpl. now left.
  - pose proof (nunique_le (map city (rows (merge all_dfs)))) as Hle.
    unfold rows in Hle. now rewrite !length_map in Hle.
Qed.

Lemma fold_max_spec (l : list Z) (x : Z) :
  let m := fold_left Z.max l x in
  x <= m /\ (forall y, In y l -> y <= m) /\ (m = x \/ In m l).
Proof.
  revert x. induction l as [|a l IH]; intros x; simpl.
  - split; [lia|]. split; [tauto|now left].
  - destruct (IH (Z.max x a)) as (H1 & H2 & H3).
    split; [lia|]. split.
    + intros y [<-|Hy]; [lia|now apply H2].
    + destruct H3 as [H3|H3]; [|right; now right].
      destruct (Z.max_spec x a) as [[_ Hm]|[_ Hm]]; rewrite Hm in *;
        [right; left; now symmetry|now left].
Qed.

Lemma fold_min_spec (l : list Z) (x : Z) :
  let m := fold_left Z.min l x in
  m <= x /\ (forall y, In y l -> m <= y) /\ (m = x \/ In m l).
Proof.
  revert x. induction l as [|a l IH]; intros x; simpl.
  - split; [lia|]. split; [tauto|now left].
  - destruct (IH (Z.min x a)) as (H1 & H2 & H3).
    split; [lia|]. split.
    + intros y [<-|Hy]; [lia|now apply H2].
    + destruct H3 as [H3|H3]; [|right; now right].
      destruct (Z.min_spec x a) as [[_ Hm]|[_ Hm]]; rewrite Hm in *;
        [now left|right; left; now symmetry].
Qed.

(** X12. The maximum temperature shown among the metrics is the temperature of
    the hottest row; the minimum is the temperature of some row and no row
    is colder. *)
Theorem max_metric_is_hottest_row (S : ArgSort) (all_dfs : list DataFrame) (v : Views) :
  derive all_dfs = Ok v ->
  overall_max_temp (df v) = Some (temp (hottest_row v))
  /\ exists lo, overall_min_temp (df v) = Some lo
                /\ (forall r, In r (rows (df v)) -> lo <= temp r)
                /\ (exists r, In r (rows (df v)) /\ temp r = lo).
Proof.
  intros Hd. apply derive_fields in Hd as (Hne & Hdf & _ & _ & _ & Hh & _).
  rewrite Hdf. destruct Hh as (Hin & Hmax & _).
  unfold overall_max_temp, overall_min_temp, series_max, series_min.
  destruct (map temp (rows (merge all_dfs))) as [|x l] eqn:Hl.
  { destruct (rows (merge all_dfs)); [destruct Hin|discriminate]. }
  assert (Hmem : forall y, In y (x :: l) <-> exists r, In r (rows (merge all_dfs))
                                                       /\ temp r = y).
  { intros y. rewrite <- Hl, in_map_iff. split; intros (r & H1 & H2); eauto. }
  split.
  - f_equal. destruct (fold_max_spec l x) as (H1 & H2 & H3).
    assert (Hm : In (fold_left Z.max l x) (x :: l))
      by (destruct H3 as [->|H3]; [now left|now right]).
    apply Hmem in Hm as (r & Hr & Htr).
    assert (Hh : In (temp (hottest_row v)) (x :: l)) by (apply Hmem; eauto).
    specialize (Hmax r Hr).
    assert (temp (hottest_row v) <= fold_left Z.max l x)
      by (destruct Hh as [<-|Hh]; [exact H1|now apply H2]).
    lia.
  - destruct (fold_min_spec l x) as (H1 & H2 & H3).
    exists (fold_left Z.min l x). split; [reflexivity|]. split.
    + intros r Hr. assert (Hy : In (temp r) (x :: l)) by (apply Hmem; eauto).
      destruct Hy as [<-|Hy]; [exact H1|now apply H2].
    + apply Hmem. destruct H3 as [->|H3]; [now left|now right].
Qed.

Lemma range_index_In (rs : list Row) (l : nat) (r : Row) :
  In (l, r) (range_index rs) -> rs !! l = Some r.
Proof.
  unfold range_index. intros Hin.
  apply list_elem_of_In, list_elem_of_lookup_1 in Hin as [i Hi].
  assert (Hlen : (i < length rs)%nat).
  { apply lookup_lt_Some in Hi. rewrite length_combine, length_seq in Hi. lia. }
  destruct (lookup_lt_is_Some_2 rs i Hlen) as [r' Hr'].
  pose proof (combine_seq_lookup rs 0 i r' Hr') as Hc. simpl in Hc.
  rewrite Hc in Hi. injection Hi as <- <-. exact Hr'.
Qed.

(** X13. Sorting keeps each row's label: the labels of the merged frame are
    0, ..., n-1 in some order, and the row labelled [l] is the row at
    position [l] of the concatenated frames. *)
Theorem merged_labels (S : ArgSort) (all_dfs : list DataFrame) :
  index (merge all_dfs) ≡ₚ seq 0 (length (concat (map rows all_dfs)))
  /\ forall i l r, merge all_dfs !! i = Some (l, r) ->
                   concat (map rows all_dfs) !! l = Some r.
Proof.
  split.
  - unfold merge. rewrite sort_values_index_perm. unfold concat_ignore_index.
    now rewrite index_range_index.
  - intros i l r Hi. apply range_index_In.
    apply list_elem_of_lookup_2 in Hi. unfold merge in Hi.
    rewrite sort_values_perm in Hi. now apply list_elem_of_In.
Qed.

(* ===================================================================== *)
(** * The city column of the merged frame *)
(* ===================================================================== *)

Lemma cache_store_wf (name : string) (lat lon days_back : Z) (v : DataFrame)
    (w : World) :
  cache_wf w -> Forall (fun r => city r = name) (rows v) ->
  cache_wf (cache_store (name, lat, lon, days_back) v w).
Proof.
  intros Hwf Hv name' lat' lon' days' e. unfold cache_store. simpl.
  destruct (decide ((name, lat, lon, days_back) = (name', lat', lon', days')))
    as [Heq|Hne].
  - injection Heq as <- <- <- <-. rewrite lookup_insert_eq. now intros [= <-].
  - rewrite lookup_insert_ne by exact Hne. apply Hwf.
Qed.

Lemma fetch_wf (net : Network) (name : string) (lat lon days_back : Z) (w : World) :
  cache_wf w ->
  cache_wf (snd (fetch_city_hourly net name lat lon days_back w))
  /\ forall fr, fst (fetch_city_hourly net name lat lon days_back w) = Ok fr ->
                Forall (fun r => city r = name) (rows fr).
Proof.
  intros Hwf. unfold fetch_city_hourly.
  destruct (cache_lookup (name, lat, lon, days_back) w) as [v|] eqn:Hlk.
  - simpl. split; [exact Hwf|]. intros fr [= <-]. unfold cache_lookup in Hlk.
    destruct (mem_cache w !! (name, lat, lon, days_back)) as [e|] eqn:He;
      [|discriminate].
    destruct (clock w <? created_at e + ttl); [|discriminate].
    injection Hlk as <-. now apply (Hwf name lat lon days_back).
  - pose proof (body_cache net name lat lon days_back w) as Hm.
    unfold fetch_city_hourly_body in *.
    destruct (net (clock w) _) as [dt out]. simpl in *.
    destruct (parse_response name out) as [v|e] eqn:Hp; simpl.
    + apply parse_response_shape in Hp as [_ Hcity]. split.
      * apply cache_store_wf; [|exact Hcity].
        intros n la lo da e He. now apply (Hwf n la lo da).
      * now intros fr [= <-].
    + split; [|discriminate]. intros n la lo da e0 He. now apply (Hwf n la lo da).
Qed.

Lemma fetch_loop_wf (net : Network) (days_back : Z) (sel : list City)
    (all_dfs : list DataFrame) (errors : Errors) (w : World) :
  cache_wf w ->
  cache_wf (snd (fetch_loop net days_back sel all_dfs errors w))
  /\ forall c fr, In (c, Ok fr) (observed net days_back sel w) ->
                  Forall (fun r => city r = city_name c) (rows fr).
Proof.
  revert all_dfs errors w. induction sel as [|c sel IH]; intros all_dfs errors w Hwf;
    simpl.
  - split; [exact Hwf|]. intros c fr [].
  - unfold fetch_for.
    destruct (fetch_wf net (city_name c) (lat (CITIES c)) (lon (CITIES c))
                days_back w Hwf) as [Hwf1 Hrows].
    destruct (fetch_city_hourly net (city_name c) _ _ days_back w) as [r w1].
    simpl in Hwf1, Hrows.
    assert (Hgoal : forall dfs errs,
               cache_wf (snd (fetch_loop net days_back sel dfs errs w1))
               /\ forall c0 fr,
                   (c, r) = (c0, Ok fr) \/ In (c0, Ok fr) (observed net days_back sel w1) ->
                   Forall (fun r => city r = city_name c0) (rows fr)).
    { intros dfs errs. destruct (IH dfs errs w1 Hwf1) as [Hwf2 Hobs].
      split; [exact Hwf2|]. intros c0 fr [[= <- ->]|Hin]; [now apply Hrows|].
      now apply Hobs. }
    destruct r as [fr|e]; [destruct (empty fr)|]; apply Hgoal.
Qed.

Lemma In_answered (obs : list (City * Result DataFrame)) (c : City) :
  In c (answered obs) <-> exists fr, In (c, Ok fr) obs /\ empty fr = false.
Proof.
  unfold answered. rewrite in_flat_map. split.
  - intros ([c' [fr|e]] & Hin & Hc); simpl in Hc; [|tauto].
    destruct (empty fr) eqn:He; simpl in Hc; [tauto|].
    destruct Hc as [<-|[]]. eauto.
  - intros (fr & Hin & He). exists (c, Ok fr). split; [exact Hin|].
    simpl. rewrite He. now left.
Qed.

Lemma answered_length (obs : list (City * Result DataFrame)) :
  length (answered obs) = length (successes obs).
Proof.
  unfold answered, successes. induction obs as [|[c [fr|e]] obs IH]; simpl; auto.
  destruct (empty fr); simpl; auto.
Qed.

Lemma answered_NoDup (obs : list (City * Result DataFrame)) :
  NoDup (map fst obs) -> NoDup (answered obs).
Proof.
  induction obs as [|[c r] obs IH]; simpl; intros Hnd; [constructor|].
  apply NoDup_cons in Hnd as [Hnotin Hnd]. specialize (IH Hnd).
  unfold answered. simpl. fold (answered obs).
  destruct r as [fr|e]; simpl; [|exact IH].
  destruct (empty fr); simpl; [exact IH|].
  apply NoDup_cons. split; [|exact IH]. intros Hin. apply Hnotin.
  apply list_elem_of_In, In_answered in Hin as (fr' & Hin & _).
  apply list_elem_of_In. change c with (fst (c, Ok fr')). now apply in_map.
Qed.

(** X14. With a store whose frames hold rows of the city they are stored for
    (the store keeps being so), every row of the merged frame carries the
    name of a selected city whose call returned it; no row carries the name
    of a city with an error; and the city count is the number of cities
    that returned a frame with rows. *)
Theorem merged_rows_belong_to_answering_cities (S : ArgSort) (net : Network)
    (sel : list City) (days_back : Z) (w w' : World) (errors : Errors) (v : Views) :
  cache_wf w -> NoDup sel ->
  build net sel days_back w = (Rendered errors v, w') ->
  let obs := observed net days_back sel w in
  cache_wf w'
  /\ (forall r, In r (rows (df v)) ->
        exists c fr, In (c, Ok fr) obs /\ In r (rows fr) /\ city r = city_name c)
  /\ (forall c e r, In (c, e) errors -> In r (rows (df v)) -> city r <> city_name c)
  /\ num_cities v = length (successes obs).
Proof.
  intros Hwf Hnd Hb obs.
  assert (Hnd' : NoDup (map fst obs)) by (unfold obs; now rewrite observed_cities).
  destruct (fetch_loop_wf net days_back sel [] [] w Hwf) as [Hwf' Hrows].
  fold obs in Hrows.
  destruct (build_outcome net sel days_back w) as [w1 [[_ Hb']|(v1 & Hb' & Hd & _)]];
    rewrite Hb in Hb'; [discriminate|].
  injection Hb' as -> <- <-. fold obs in Hd.
  pose proof (build_world net sel days_back w) as Hw. rewrite Hb in Hw. simpl in Hw.
  apply derive_fields in Hd as (_ & Hdf & Hnc & _).
  assert (Hfrom : forall r, In r (rows (df v)) ->
            exists c fr, In (c, Ok fr) obs /\ empty fr = false /\ In r (rows fr)
                         /\ city r = city_name c).
  { intros r Hr. rewrite Hdf in Hr.
    apply list_elem_of_In in Hr. rewrite merge_rows_perm in Hr.
    apply list_elem_of_In, in_concat in Hr as (rs & Hrs & Hr).
    apply in_map_iff in Hrs as (fr & <- & Hfr).
    apply In_successes in Hfr as (c & Hin & He).
    exists c, fr. repeat split; auto.
    specialize (Hrows c fr Hin). rewrite Forall_forall in Hrows.
    now apply Hrows, list_elem_of_In. }
  split; [now rewrite Hw|]. split; [|split].
  - intros r Hr. destruct (Hfrom r Hr) as (c & fr & H1 & _ & H2 & H3). eauto.
  - intros c e r Hce Hr Hcity. destruct (Hfrom r Hr) as (c' & fr & H1 & _ & _ & H3).
    rewrite H3 in Hcity. apply city_name_inj in Hcity. subst c'.
    apply In_failures in Hce.
    pose proof (assoc_functional obs c _ _ Hnd' H1 Hce). discriminate.
  - rewrite Hnc, <- answered_length, <- (length_map city_name).
    apply nunique_NoDup.
    + apply NoDup_fmap_2; [intros a b; apply city_name_inj|].
      now apply answered_NoDup.
    + intros x. rewrite <- Hdf. split.
      * intros Hx. apply in_map_iff in Hx as (r & <- & Hr).
        destruct (Hfrom r Hr) as (c & fr & H1 & H2 & _ & H3).
        rewrite H3. apply in_map. apply In_answered. eauto.
      * intros Hx. apply in_map_iff in Hx as (c & <- & Hc).
        apply In_answered in Hc as (fr & Hin & He).
        destruct fr as [|[l r] fr]; [discriminate|].
        specialize (Hrows c _ Hin). apply Forall_cons in Hrows as [Hr _].
        simpl in Hr. rewrite <- Hr. apply in_map. rewrite Hdf.
        apply list_elem_of_In. rewrite merge_rows_perm.
        apply list_elem_of_In, in_concat. exists (rows ((l, r) :: fr)).
        split; [|simpl; now left]. apply in_map. apply In_successes. eauto.
Qed.

(* ===================================================================== *)
(** * The wind rose selection and the time window *)
(* ===================================================================== *)

#[global] Instance string_le_total : Total string_le.
Proof. intros a b. apply String.leb_total. Qed.

#[global] Instance string_le_trans : Transitive string_le.
Proof. intros a b c. apply string_leb_trans. Qed.

#[global] Instance string_le_antisym : AntiSymm eq string_le.
Proof. intros a b. apply String.leb_antisym. Qed.

Lemma unique_from_spec (seen l : list string) :
  NoDup (unique_from seen l)
  /\ forall x, In x (unique_from seen l) <-> In x l /\ ~ In x seen.
Proof.
  revert seen. induction l as [|a l IH]; intros seen; simpl.
  - split; [constructor|]. tauto.
  - destruct (bool_decide_reflect (a ∈ seen)) as [Ha|Ha];
      rewrite list_elem_of_In in Ha.
    + destruct (IH seen) as [Hnd Hin]. split; [exact Hnd|].
      intros x. rewrite Hin. split; [tauto|]. intros [[<-|Hx] Hns]; tauto.
    + destruct (IH (a :: seen)) as [Hnd Hin]. split.
      * apply NoDup_cons. split; [|exact Hnd]. rewrite list_elem_of_In, Hin.
        simpl. tauto.
      * intros x. simpl. rewrite Hin. simpl. split.
        -- intros [<-|[Hx Hns]]; tauto.
        -- intros [[<-|Hx] Hns]; [now left|].
           destruct (decide (a = x)) as [->|Hne]; [now left|right; tauto].
Qed.

Lemma unique_spec (l : list string) :
  NoDup (unique l) /\ forall x, In x (unique l) <-> In x l.
Proof.
  destruct (unique_from_spec [] l) as [Hnd Hin]. split; [exact Hnd|].
  intros x. unfold unique. rewrite Hin. simpl. tauto.
Qed.

Lemma sorted_spec (l : list string) :
  Sorted string_le (sorted l) /\ sorted l ≡ₚ l.
Proof.
  unfold sorted. split; [apply Sorted_merge_sort, _|apply merge_sort_Permutation].
Qed.

Lemma wind_options_spec {S : ArgSort} (fr : DataFrame) :
  wind_options fr = map city (rows (latest_snapshot fr)).
Proof.
  destruct (latest_snapshot_spec fr) as (Hnd & Hsame & _ & Hs). simpl in *.
  unfold wind_options.
  destruct (sorted_spec (unique (map city (rows fr)))) as [Hsorted Hperm].
  destruct (unique_spec (map city (rows fr))) as [Hund Huin].
  apply (Sorted_unique string_le); [exact Hsorted|exact Hs|].
  apply NoDup_Permutation; [now rewrite Hperm|exact Hnd|].
  intros x. rewrite Hperm, !list_elem_of_In, Huin. apply Hsame.
Qed.

Lemma indicator_zero (opts : list string) (x : string) :
  ~ In x opts ->
  list_sum (map (fun c => if String.eqb x c then 1%nat else 0%nat) opts) = 0%nat.
Proof.
  induction opts as [|c opts IH]; simpl; [reflexivity|]. intros Hnotin.
  destruct (String.eqb_spec x c) as [->|_]; [destruct Hnotin; now left|].
  apply IH. intros Hin. apply Hnotin. now right.
Qed.

Lemma indicator_sum (opts : list string) (x : string) :
  NoDup opts -> In x opts ->
  list_sum (map (fun c => if String.eqb x c then 1%nat else 0%nat) opts) = 1%nat.
Proof.
  induction opts as [|c opts IH]; simpl; [tauto|].
  intros Hnd Hin. apply NoDup_cons in Hnd as [Hnotin Hnd].
  rewrite list_elem_of_In in Hnotin.
  destruct (String.eqb_spec x c) as [->|Hne].
  - now rewrite indicator_zero.
  - destruct Hin as [->|Hin]; [contradiction|]. now apply IH.
Qed.

Lemma wind_df_partition (fr : DataFrame) (opts : list string) :
  NoDup opts -> (forall p, In p fr -> In (city (snd p)) opts) ->
  list_sum (map (fun c => length (wind_df fr c)) opts) = length fr.
Proof.
  intros Hnd. induction fr as [|p fr IH]; intros Hall.
  - unfold wind_df. simpl. clear Hnd Hall. induction opts; simpl; auto.
  - assert (Hsplit : forall c, length (wind_df (p :: fr) c)
                     = ((if String.eqb (city (snd p)) c then 1 else 0)
                        + length (wind_df fr c))%nat).
    { intros c. unfold wind_df. simpl.
      destruct (String.eqb (city (snd p)) c); reflexivity. }
    assert (Hsum : forall (f g : string -> nat) l,
               list_sum (map (fun c => (f c + g c)%nat) l)
               = (list_sum (map f l) + list_sum (map g l))%nat).
    { intros f g l. induction l as [|a l IHl]; simpl; [reflexivity|].
      rewrite IHl. lia. }
    rewrite (map_ext _ _ Hsplit), Hsum.
    rewrite indicator_sum; [|exact Hnd|apply Hall; now left].
    rewrite IH; [reflexivity|]. intros q Hq. apply Hall. now right.
Qed.

(** X15. The options of the wind-rose selectbox are the city column of the
    snapshot table, in the same order; and the per-city subsets taken over
    all options hold together as many rows as the frame. *)
Theorem wind_options_are_snapshot_cities (S : ArgSort) (fr : DataFrame) :
  wind_options fr = map city (rows (latest_snapshot fr))
  /\ list_sum (map (fun c => length (wind_df fr c)) (wind_options fr)) = length fr.
Proof.
  split; [apply wind_options_spec|].
  destruct (sorted_spec (unique (map city (rows fr)))) as [_ Hperm].
  destruct (unique_spec (map city (rows fr))) as [Hund Huin].
  apply wind_df_partition.
  - unfold wind_options. now rewrite Hperm.
  - intros p Hp. unfold wind_options. apply list_elem_of_In. rewrite Hperm.
    apply list_elem_of_In, Huin. unfold rows. rewrite map_map.
    now apply (in_map (fun p => city (snd p))).
Qed.

Lemma filter_StronglySorted {A : Type} (R : A -> A -> Prop) (f : A -> bool)
    (l : list A) :
  StronglySorted R l -> StronglySorted R (List.filter f l).
Proof.
  induction 1 as [|a l Hs IH Hall]; simpl; [constructor|].
  destruct (f a); [|exact IH]. constructor; [exact IH|].
  rewrite Forall_forall in *. intros x Hx. apply Hall.
  apply list_elem_of_In in Hx. apply filter_In in Hx as [Hx _].
  now apply list_elem_of_In.
Qed.

Lemma rows_filter (f : Row -> bool) (fr : DataFrame) :
  rows (List.filter (fun p => f (snd p)) fr) = List.filter f (rows fr).
Proof.
  unfold rows. induction fr as [|p fr IH]; simpl; [reflexivity|].
  destruct (f (snd p)); simpl; now rewrite IH.
Qed.

(** X16. For every option of the selectbox, the subset drawn in the wind rose
    is not empty, holds exactly the rows of that city, and keeps them in
    ascending order of timestamp. *)
Theorem wind_df_of_an_option (S : ArgSort) (all_dfs : list DataFrame)
    (wind_city : string) :
  In wind_city (wind_options (merge all_dfs)) ->
  let sub := wind_df (merge all_dfs) wind_city in
  sub <> []
  /\ (forall r, In r (rows sub) <-> In r (rows (merge all_dfs)) /\ city r = wind_city)
  /\ StronglySorted by_time (rows sub).
Proof.
  intros Hopt sub.
  assert (Hrows : rows sub
                  = List.filter (fun r => String.eqb (city r) wind_city)
                                (rows (merge all_dfs)))
    by (unfold sub, wind_df; apply (rows_filter (fun r => String.eqb (city r) wind_city))).
  assert (Hmem : forall r, In r (rows sub)
                           <-> In r (rows (merge all_dfs)) /\ city r = wind_city).
  { intros r. rewrite Hrows, filter_In, String.eqb_eq. reflexivity. }
  split; [|split].
  - destruct (sorted_spec (unique (map city (rows (merge all_dfs))))) as [_ Hperm].
    destruct (unique_spec (map city (rows (merge all_dfs)))) as [_ Huin].
    unfold wind_options in Hopt. apply list_elem_of_In in Hopt.
    rewrite Hperm in Hopt. apply list_elem_of_In, Huin in Hopt.
    apply in_map_iff in Hopt as (r & Hc & Hr).
    intros Hnil. assert (Hin : In r (rows sub)) by (apply Hmem; auto).
    rewrite Hnil in Hin. destruct Hin.
  - exact Hmem.
  - rewrite Hrows. apply filter_StronglySorted.
    apply StronglySorted_by_time, merge_sorted.
Qed.

(** X19. The three options of the time-window selectbox give 0, 1 and 3 past
    days, as their labels say, and no label gives any other number. *)
Theorem days_back_of_options :
  map days_back_of window_options = [0; 1; 3]
  /\ forall days_option, days_back_of days_option = 0
                         \/ days_back_of days_option = 1
                         \/ days_back_of days_option = 3.
Proof.
  split; [reflexivity|]. intros s. unfold days_back_of.
  destruct (contains "0" s); [auto|]. destruct (contains "1" s); auto.
Qed.

(* ===================================================================== *)
(** * The heatmap tables *)
(* ===================================================================== *)

Lemma group_fold_lookup (key : Row -> string * Z) (fr : DataFrame)
    (groups : gmap (string * Z) (list Z)) (k : string * Z) :
  fold_left (fun groups p =>
               <[key (snd p) := default [] (groups !! key (snd p)) ++ [temp (snd p)]]>
                 groups)
            fr groups !! k
  = match group_rows key fr k with
    | [] => groups !! k
    | r :: rs => Some (default [] (groups !! k) ++ map temp (r :: rs))
    end.
Proof.
  revert groups. unfold group_rows, rows.
  induction fr as [|p fr IH]; intros groups; simpl; [reflexivity|].
  rewrite IH. destruct (bool_decide_reflect (key (snd p) = k)) as [Hk|Hk].
  - rewrite Hk, lookup_insert_eq. simpl.
    destruct (List.filter _ (map snd fr)) as [|r rs]; simpl; [reflexivity|].
    now rewrite <- app_assoc.
  - now rewrite lookup_insert_ne by exact Hk.
Qed.

Lemma group_temps_lookup (key : Row -> string * Z) (fr : DataFrame) (k : string * Z) :
  group_temps key fr !! k
  = match group_rows key fr k with
    | [] => None
    | r :: rs => Some (map temp (r :: rs))
    end.
Proof.
  unfold group_temps. rewrite group_fold_lookup, lookup_empty.
  now destruct (group_rows key fr k).
Qed.

Lemma group_rows_In (key : Row -> string * Z) (fr : DataFrame) (k : string * Z)
    (r : Row) :
  In r (group_rows key fr k) <-> In r (rows fr) /\ key r = k.
Proof.
  unfold group_rows. rewrite filter_In.
  destruct (bool_decide_reflect (key r = k)); split; intros [H1 H2]; auto; discriminate.
Qed.

Lemma group_keys (key : Row -> string * Z) (fr : DataFrame) (k : string * Z) :
  In k (map fst (map_to_list (group_temps key fr)))
  <-> exists r, In r (rows fr) /\ key r = k.
Proof.
  rewrite in_map_iff. split.
  - intros ([k' ts] & <- & Hin). apply list_elem_of_In, elem_of_map_to_list in Hin.
    simpl. rewrite group_temps_lookup in Hin.
    destruct (group_rows key fr k') as [|r rs] eqn:Hg; [discriminate|].
    exists r. apply group_rows_In. rewrite Hg. now left.
  - intros (r & Hr & Hk).
    assert (Hin : In r (group_rows key fr k)) by (apply group_rows_In; auto).
    destruct (group_rows key fr k) as [|r0 rs] eqn:Hg; [destruct Hin|].
    exists (k, map temp (r0 :: rs)). split; [reflexivity|].
    apply list_elem_of_In, elem_of_map_to_list. now rewrite group_temps_lookup, Hg.
Qed.

(** X17. A cell of either heatmap table is the mean of the temperatures of the
    rows of that city and that date (or hour), taken in the order of the
    frame; a city and date (or hour) with no row has no value. *)
Theorem heatmap_cells {M : Type} (mean : list Z -> M) (ticks_per_hour : Z)
    (fr : DataFrame) (c : string) (d : Z) :
  pivot_cell (pivot_daily mean ticks_per_hour fr) c d
  = match group_rows (city_date ticks_per_hour) fr (c, d) with
    | [] => None
    | r :: rs => Some (mean (map temp (r :: rs)))
    end
  /\ pivot_cell (pivot_hourly mean ticks_per_hour fr) c d
     = match group_rows (city_hour ticks_per_hour) fr (c, d) with
       | [] => None
       | r :: rs => Some (mean (map temp (r :: rs)))
       end
  /\ (forall r, In r (group_rows (city_date ticks_per_hour) fr (c, d))
                <-> In r (rows fr) /\ city r = c
                    /\ date_of ticks_per_hour (time r) = d)
  /\ (forall r, In r (group_rows (city_hour ticks_per_hour) fr (c, d))
                <-> In r (rows fr) /\ city r = c
                    /\ hour_of ticks_per_hour (time r) = d).
Proof.
  unfold pivot_daily, pivot_hourly, pivot_mean. simpl.
  rewrite !group_temps_lookup. split; [|split; [|split]].
  - now destruct (group_rows _ fr (c, d)).
  - now destruct (group_rows _ fr (c, d)).
  - intros r. rewrite group_rows_In. unfold city_date.
    split; [intros [H1 [= H2 H3]]; auto|intros (H1 & H2 & H3); split; congruence].
  - intros r. rewrite group_rows_In. unfold city_hour.
    split; [intros [H1 [= H2 H3]]; auto|intros (H1 & H2 & H3); split; congruence].
Qed.

Lemma sorted_unique_ext (l1 l2 : list string) :
  (forall x, In x l1 <-> In x l2) -> sorted (unique l1) = sorted (unique l2).
Proof.
  intros Hsame.
  destruct (sorted_spec (unique l1)) as [Hs1 Hp1].
  destruct (sorted_spec (unique l2)) as [Hs2 Hp2].
  destruct (unique_spec l1) as [Hn1 Hi1]. destruct (unique_spec l2) as [Hn2 Hi2].
  apply (Sorted_unique string_le); [exact Hs1|exact Hs2|].
  apply NoDup_Permutation; [now rewrite Hp1|now rewrite Hp2|].
  intros x. rewrite Hp1, Hp2, !list_elem_of_In, Hi1, Hi2. apply Hsame.
Qed.

Lemma pivot_index_spec {M : Type} (mean : list Z -> M) (key : Row -> string * Z)
    (fr : DataFrame) :
  (forall r, fst (key r) = city r) ->
  pivot_index (pivot_mean mean key fr) = wind_options fr.
Proof.
  intros Hkey. unfold pivot_mean, wind_options. simpl. apply sorted_unique_ext.
  intros c. rewrite !in_map_iff. split.
  - intros (k & <- & Hk). apply group_keys in Hk as (r & Hr & <-).
    exists r. split; [now rewrite Hkey|exact Hr].
  - intros (r & <- & Hr). exists (key r). split; [apply Hkey|].
    apply group_keys. eauto.
Qed.

Lemma pivot_columns_spec {M : Type} (mean : list Z -> M) (key : Row -> string * Z)
    (fr : DataFrame) :
  let cols := pivot_columns (pivot_mean mean key fr) in
  Sorted Z.lt cols
  /\ forall d, In d cols <-> exists r, In r (rows fr) /\ snd (key r) = d.
Proof.
  intros cols. unfold cols, pivot_mean, sorted_numbers. simpl.
  set (ds := map snd (map fst (map_to_list (group_temps key fr)))).
  assert (Hperm : merge_sort Z.le (remove_dups ds) ≡ₚ remove_dups ds)
    by apply merge_sort_Permutation.
  assert (Hsorted : Sorted Z.le (merge_sort Z.le (remove_dups ds)))
    by apply Sorted_merge_sort, _.
  assert (Hnd : NoDup (merge_sort Z.le (remove_dups ds)))
    by (rewrite Hperm; apply NoDup_remove_dups).
  split.
  - clear Hperm. induction Hsorted as [|a l Hs IH Hhd]; [constructor|].
    apply NoDup_cons in Hnd as [Hnotin Hnd]. constructor; [now apply IH|].
    destruct Hhd as [|b l' Hab]; constructor.
    assert (a <> b) by (intros ->; apply Hnotin; now left). lia.
  - intros d. rewrite <- list_elem_of_In, Hperm, elem_of_remove_dups, list_elem_of_In.
    unfold ds. rewrite in_map_iff. split.
    + intros (k & <- & Hk). apply group_keys in Hk as (r & Hr & <-). eauto.
    + intros (r & Hr & <-). exists (key r). split; [reflexivity|].
      apply group_keys. eauto.
Qed.

Lemma bounded_NoDup_length (l : list Z) (n : nat) :
  NoDup l -> (forall x, In x l -> 0 <= x < Z.of_nat n) -> (length l <= n)%nat.
Proof.
  intros Hnd Hb.
  enough (Hle : (length (map Z.to_nat l) <= length (seq 0 n))%nat)
    by (now rewrite length_map, length_seq in Hle).
  apply NoDup_incl_length.
  - apply NoDup_ListNoDup, NoDup_fmap_2_strong; [|exact Hnd].
    intros x y Hx Hy Heq. apply list_elem_of_In, Hb in Hx.
    apply list_elem_of_In, Hb in Hy. lia.
  - intros k Hk. apply in_map_iff in Hk as (x & <- & Hx).
    apply Hb in Hx. apply in_seq. lia.
Qed.

Lemma Sorted_lt_NoDup (l : list Z) : Sorted Z.lt l -> NoDup l.
Proof.
  intros Hs. apply Sorted.Sorted_StronglySorted in Hs; [|intros a b c; lia].
  induction Hs as [|a l Hs IH Hall]; [constructor|].
  apply NoDup_cons. split; [|exact IH]. intros Hin.
  rewrite Forall_forall in Hall. specialize (Hall a Hin). lia.
Qed.

(** X18. Both heatmap tables have the cities of the snapshot table as their row
    labels, in the same order. The column labels of the hourly table are
    hours of the day that occur in the frame, all within 0..23, in strictly
    ascending order, so there are at most 24 of them. *)
Theorem heatmap_axes (S : ArgSort) {M : Type} (mean : list Z -> M)
    (ticks_per_hour : Z) (fr : DataFrame) :
  0 < ticks_per_hour ->
  pivot_index (pivot_daily mean ticks_per_hour fr) = map city (rows (latest_snapshot fr))
  /\ pivot_index (pivot_hourly mean ticks_per_hour fr)
     = map city (rows (latest_snapshot fr))
  /\ Sorted Z.lt (pivot_columns (pivot_hourly mean ticks_per_hour fr))
  /\ (forall h, In h (pivot_columns (pivot_hourly mean ticks_per_hour fr)) <->
                exists r, In r (rows fr) /\ hour_of ticks_per_hour (time r) = h)
  /\ Forall (fun h => 0 <= h < 24) (pivot_columns (pivot_hourly mean ticks_per_hour fr))
  /\ (length (pivot_columns (pivot_hourly mean ticks_per_hour fr)) <= 24)%nat.
Proof.
  intros Htph. unfold pivot_daily, pivot_hourly.
  rewrite !pivot_index_spec by reflexivity. rewrite wind_options_spec.
  split; [reflexivity|]. split; [reflexivity|].
  destruct (pivot_columns_spec mean (city_hour ticks_per_hour) fr) as [Hs Hin].
  simpl in Hs, Hin. split; [exact Hs|]. split; [exact Hin|].
  assert (Hb : forall h, In h (pivot_columns (pivot_mean mean (city_hour ticks_per_hour) fr))
                         -> 0 <= h < 24).
  { intros h Hh. apply Hin in Hh as (r & _ & <-). unfold hour_of.
    apply Z.mod_pos_bound. lia. }
  split.
  - apply Forall_forall. intros h Hh. now apply Hb, list_elem_of_In.
  - apply (bounded_NoDup_length _ 24); [now apply Sorted_lt_NoDup|exact Hb].
Qed.

(* ===================================================================== *)
(** * Further properties on the concrete world *)
(* ===================================================================== *)

(** The specification's example for the daily table: two rows of one city
    on one day, at 20.0 and 30.0 degrees, make one cell, the mean of the
    two. *)
Example daily_cell_of_spec_example :
  pivot_cell (pivot_daily sum_and_count 3600
                [(0%nat, mk_row "Riyadh" 0 200 30 90);
                 (1%nat, mk_row "Riyadh" 3600 300 40 95)]) "Riyadh" 0
  = Some (500, 2%nat).
Proof. vm_compute. reflexivity. Qed.

Lemma first_missing_member_witness :
  parse_response "Riyadh"
    (Responded {| status_code := 200; body := Some (HourlyObj times_only) |})
  = Raise (KeyError "temperature_2m").
Proof.
  apply (first_missing_member_raises "Riyadh" 200 times_only ["time"%string]
           "temperature_2m" ["windspeed_10m"; "winddirection_10m"]%string).
  - lia.
  - intros Heq. assert (H : times_only !! "time"%string = None) by now rewrite Heq.
    vm_compute in H. discriminate.
  - reflexivity.
  - repeat constructor. vm_compute. eauto.
  - vm_compute. reflexivity.
Defined.

Lemma fetched_frame_shape_witness :
  index riyadh_frame = seq 0 (length riyadh_frame)
  /\ Forall (fun r => city r = "Riyadh"%string) (rows riyadh_frame).
Proof.
  apply (fetched_frame_shape demo_net "Riyadh" 247136 466753 1 cold riyadh_frame).
  vm_compute. reflexivity.
Defined.

Lemma errors_are_not_cached_witness :
  mem_cache after_dammam = mem_cache cold
  /\ requests_sent after_dammam = requests_sent cold ++ [request_for 1 Dammam]
  /\ forall d : N,
      requests_sent (snd (fetch_city_hourly demo_net "Dammam" 263927 499777 1
                            (elapse d after_dammam)))
      = requests_sent after_dammam ++ [request_for 1 Dammam].
Proof.
  apply (errors_are_not_cached demo_net "Dammam" 263927 499777 1 cold after_dammam
           ConnectionError).
  vm_compute. reflexivity.
Defined.

Lemma expired_entry_witness :
  let w := elapse 300000000000 after_riyadh in
  let r := fst (fetch_city_hourly demo_net "Riyadh" 247136 466753 1 w) in
  let w1 := snd (fetch_city_hourly demo_net "Riyadh" 247136 466753 1 w) in
  requests_sent w1 = requests_sent w ++ [riyadh_request]
  /\ r = fst (fetch_city_hourly_body demo_net "Riyadh" 247136 466753 1 w)
  /\ match r with
     | Ok v => mem_cache w1 !! key_for 1 Riyadh
               = Some {| value := v; created_at := clock w1 |}
     | Raise _ => mem_cache w1 !! key_for 1 Riyadh
                  = Some {| value := riyadh_frame; created_at := 1000000 |}
     end.
Proof.
  apply (expired_entry_is_refetched demo_net "Riyadh" 247136 466753 1
           (elapse 300000000000 after_riyadh)
           {| value := riyadh_frame; created_at := 1000000 |}).
  - vm_compute. reflexivity.
  - vm_compute. discriminate.
Defined.

Lemma other_window_witness :
  let w1 := snd (fetch_city_hourly demo_net "Riyadh" 247136 466753 1 cold) in
  requests_sent (snd (fetch_city_hourly demo_net "Riyadh" 247136 466753 3 w1))
  = requests_sent w1 ++ [request_for 3 Riyadh].
Proof.
  apply (other_window_is_fetched demo_net "Riyadh" 247136 466753 1 3 cold).
  - lia.
  - reflexivity.
Defined.

Lemma live_entries_witness :
  snd (build demo_net [Riyadh] 1 after_riyadh) = after_riyadh
  /\ page_errors (fst (build demo_net [Riyadh] 1 after_riyadh)) = []
  /\ forall c r, In (c, r) (observed demo_net 1 [Riyadh] after_riyadh) ->
                 exists fr, cache_lookup (key_for 1 c) after_riyadh = Some fr
                            /\ r = Ok fr.
Proof.
  apply (live_entries_serve_the_run insertion_sort demo_net [Riyadh] 1 after_riyadh).
  intros c [<-|[]]. exists riyadh_frame. vm_compute. reflexivity.
Defined.

Lemma rerun_witness :
  let w1 := snd (app demo_net [Riyadh; Jeddah] 1 true cold) in
  app demo_net [Riyadh; Jeddah] 1 false (elapse 1000 w1)
  = (fst (app demo_net [Riyadh; Jeddah] 1 true cold), elapse 1000 w1).
Proof.
  apply (rerun_within_ttl insertion_sort demo_net [Riyadh; Jeddah] 1 cold 1000).
  - apply (bool_decide_unpack _). vm_compute. reflexivity.
  - vm_compute. reflexivity.
  - vm_compute. reflexivity.
Defined.

Lemma metrics_witness :
  num_records demo_views = length (df demo_views)
  /\ num_records demo_views = length (concat (map rows [riyadh_frame; jeddah_frame]))
  /\ num_cities demo_views = length (latest_rows demo_views)
  /\ (1 <= num_cities demo_views <= num_records demo_views)%nat.
Proof.
  apply (metrics_agree_with_tables insertion_sort [riyadh_frame; jeddah_frame]).
  vm_compute. reflexivity.
Defined.

Lemma max_metric_witness :
  overall_max_temp (df demo_views) = Some (temp (hottest_row demo_views))
  /\ exists lo, overall_min_temp (df demo_views) = Some lo
                /\ (forall r, In r (rows (df demo_views)) -> lo <= temp r)
                /\ (exists r, In r (rows (df demo_views)) /\ temp r = lo).
Proof.
  apply (max_metric_is_hottest_row insertion_sort [riyadh_frame; jeddah_frame]).
  vm_compute. reflexivity.
Defined.

Lemma answering_cities_witness :
  let obs := observed demo_net 1 default_selection cold in
  cache_wf (snd (build demo_net default_selection 1 cold))
  /\ (forall r, In r (rows (df demo_views)) ->
        exists c fr, In (c, Ok fr) obs /\ In r (rows fr) /\ city r = city_name c)
  /\ (forall c e r, In (c, e) [(Dammam, ConnectionError)] ->
                    In r (rows (df demo_views)) -> city r <> city_name c)
  /\ num_cities demo_views = length (successes obs).
Proof.
  apply (merged_rows_belong_to_answering_cities insertion_sort demo_net
           default_selection 1 cold (snd (build demo_net default_selection 1 cold))
           [(Dammam, ConnectionError)] demo_views).
  - intros name lat lon days e He. vm_compute in He. discriminate.
  - apply (bool_decide_unpack _). vm_compute. reflexivity.
  - vm_compute. reflexivity.
Defined.

Lemma wind_df_witness :
  let sub := wind_df (merge [riyadh_frame; jeddah_frame]) "Jeddah" in
  sub <> []
  /\ (forall r, In r (rows sub)
                <-> In r (rows (merge [riyadh_frame; jeddah_frame]))
                    /\ city r = "Jeddah"%string)
  /\ StronglySorted by_time (rows sub).
Proof.
  apply (wind_df_of_an_option insertion_sort [riyadh_frame; jeddah_frame] "Jeddah").
  vm_compute. left. reflexivity.
Defined.

Lemma heatmap_axes_witness :
  pivot_index (pivot_daily sum_and_count 3600 (df demo_views))
  = map city (rows (latest_snapshot (df demo_views)))
  /\ pivot_index (pivot_hourly sum_and_count 3600 (df demo_views))
     = map city (rows (latest_snapshot (df demo_views)))
  /\ Sorted Z.lt (pivot_columns (pivot_hourly sum_and_count 3600 (df demo_views)))
  /\ (forall h, In h (pivot_columns (pivot_hourly sum_and_count 3600 (df demo_views)))
                <-> exists r, In r (rows (df demo_views))
                              /\ hour_of 3600 (time r) = h)
  /\ Forall (fun h => 0 <= h < 24)
            (pivot_columns (pivot_hourly sum_and_count 3600 (df demo_views)))
  /\ (length (pivot_columns (pivot_hourly sum_and_count 3600 (df demo_views)))
      <= 24)%nat.
Proof.
  apply (heatmap_axes insertion_sort sum_and_count 3600 (df demo_views)). lia.
Defined.
